(** * Xenon asset manager: a shallow embedding of
      [xenon/core/asset_manager.cpp] and the properties of its registry,
      live store, directory scan, load dispatch and sorted view. *)

From Stdlib Require Import String Ascii NArith Permutation.
From stdpp Require Import base gmap list strings sorting.

Local Open Scope string_scope.
Local Open Scope list_scope.

(** ** Abnormal termination

    The C++ code can leave a function abnormally: [std::map::at] throws
    [std::out_of_range], [std::filesystem::directory_iterator] throws on a
    path that is not a directory, a [static_cast<Directory*>] of an object
    that is not a [Directory] followed by a member access is undefined, and
    so is flowing off the end of a function that returns [bool]. *)

Inductive Fault : Type :=
  | OutOfRange        (* std::out_of_range from map::at *)
  | BadDowncast       (* static_cast<Directory*> of a plain Asset, then use *)
  | MissingReturn     (* control reaches the end of a non-void function *)
  | FilesystemError.  (* directory_iterator on something not a directory *)

Inductive Result (A : Type) : Type :=
  | Ok (a : A)
  | Raise (f : Fault).

Arguments Ok {A} a.
Arguments Raise {A} f.

Definition bind {A B : Type} (r : Result A) (k : A → Result B) : Result B :=
  match r with
  | Ok a => k a
  | Raise f => Raise f
  end.

Notation "'do' x <- r ; k" := (bind r (fun x => k))
  (at level 10, x pattern, r at level 100, k at level 200).

(** ** Identity *)

Module UUID.
(** Modelled from the spec: the class [UUID] is declared in a header that
    is not part of this translation unit.  A handle is an opaque number
    that can be compared, [None ()] is the distinguished sentinel and
    [isValid ()] tells a handle from it. *)
Definition t : Type := N.
Definition None : t := 0%N.
Definition isValid (u : t) : bool := negb (N.eqb u None).
End UUID.

(** ** Asset types *)

Module AssetType.
(** Modelled from the spec: the enumeration is declared in the asset
    header; its enumerators are taken in the order the spec lists them. *)
Inductive t : Type := None | Directory | Model | Texture.

Definition ordinal (a : t) : nat :=
  match a with None => 0 | Directory => 1 | Model => 2 | Texture => 3 end.

Definition of_ordinal (n : nat) : t :=
  match n with 0 => None | 1 => Directory | 2 => Model | _ => Texture end.

(** [operator<] of the enum class compares the underlying values. *)
Definition ltb (a b : t) : bool := Nat.ltb (ordinal a) (ordinal b).
End AssetType.

Global Instance AssetType_eq_dec : EqDecision AssetType.t.
Proof. solve_decision. Defined.

Global Instance AssetType_countable : Countable AssetType.t :=
  inj_countable' AssetType.ordinal AssetType.of_ordinal
    (λ a, match a with
          | AssetType.None | AssetType.Directory
          | AssetType.Model | AssetType.Texture => eq_refl
          end).

(** ** Assets *)

(** Modelled from the spec: the structures [AssetMetadata], [RuntimeData],
    [Asset], [Directory] and [AssetManager] are declared in the headers;
    their members are the ones this translation unit reads and writes. *)
Record AssetMetadata : Type := mkAssetMetadata {
  handle : UUID.t;
  path : string;
  type : AssetType.t
}.

Record RuntimeData : Type := mkRuntimeData {
  filename : string;
  extension : string;
  parent : UUID.t;
  loaded : bool
}.

(** An [Asset*] points either to a plain [Asset] or to a [Directory], the
    subclass that adds the vector [children].  The dynamic class of the
    object is kept in [children]: [Some l] for a [Directory] whose vector
    is [l], [None] for a plain [Asset]. *)
Record Asset : Type := mkAsset {
  metadata : AssetMetadata;
  runtimeData : RuntimeData;
  children : option (list UUID.t)
}.

Global Instance AssetMetadata_eq_dec : EqDecision AssetMetadata.
Proof. solve_decision. Defined.
Global Instance RuntimeData_eq_dec : EqDecision RuntimeData.
Proof. solve_decision. Defined.
Global Instance Asset_eq_dec : EqDecision Asset.
Proof. solve_decision. Defined.

Definition set_loaded (b : bool) (a : Asset) : Asset :=
  {| metadata := metadata a;
     runtimeData := {| filename := filename (runtimeData a);
                       extension := extension (runtimeData a);
                       parent := parent (runtimeData a);
                       loaded := b |};
     children := children a |}.

(** [children.push_back (h)] through a [Directory*] obtained by
    [static_cast]: defined only when the object is a [Directory]. *)
Definition push_child (h : UUID.t) (a : Asset) : Result Asset :=
  match children a with
  | Some l => Ok {| metadata := metadata a;
                    runtimeData := runtimeData a;
                    children := Some (l ++ [h]) |}
  | None => Raise BadDowncast
  end.

(** ** Serializers *)

(** Modelled from the spec: [AssetSerializer] is declared in the
    serializer header.  [createAssetManager] builds it from two function
    pointers, of which [loadAssetData] reads the second, [load]; the first
    is null wherever this translation unit builds one.  A function pointer
    is represented by the name of the function it points to, the null
    pointer by [None]. *)
Inductive AssetLoadFunc : Type := loadModelAsset | loadTextureAsset.
Inductive AssetSaveFunc : Type := .

Record AssetSerializer : Type := mkAssetSerializer {
  save : option AssetSaveFunc;
  load : option AssetLoadFunc
}.

(** ** The manager

    The live store owns its objects: an object is reached through the
    store by its handle, and the code deletes the object a handle had
    before it stores another one under it.  The store therefore holds the
    objects themselves, and [sortedAssets], which the code fills with the
    pointers of the store, holds the objects as they are when it is
    built.  The field says what the view shows right after
    [updateAssetRegistry]; once a later import has replaced an object, the
    pointer the code's view holds is to a deleted object, which a list of
    objects does not show, so that nothing is stated of the view
    then. *)

Record AssetManager : Type := mkAssetManager {
  projectFolder : string;
  serializers : gmap AssetType.t AssetSerializer;
  registry : gmap string AssetMetadata;
  assets : gmap UUID.t Asset;
  sortedAssets : list (UUID.t * Asset);
  (** State of the generator behind [UUID ()]: the number of handles it
      has produced so far.  It is global in the program and threaded
      through the manager here. *)
  uuidsDrawn : nat
}.

Definition set_registry (r : gmap string AssetMetadata) (m : AssetManager)
  : AssetManager :=
  {| projectFolder := projectFolder m; serializers := serializers m;
     registry := r; assets := assets m; sortedAssets := sortedAssets m;
     uuidsDrawn := uuidsDrawn m |}.

Definition set_assets (a : gmap UUID.t Asset) (m : AssetManager)
  : AssetManager :=
  {| projectFolder := projectFolder m; serializers := serializers m;
     registry := registry m; assets := a; sortedAssets := sortedAssets m;
     uuidsDrawn := uuidsDrawn m |}.

Definition set_sortedAssets (l : list (UUID.t * Asset)) (m : AssetManager)
  : AssetManager :=
  {| projectFolder := projectFolder m; serializers := serializers m;
     registry := registry m; assets := assets m; sortedAssets := l;
     uuidsDrawn := uuidsDrawn m |}.

Definition set_uuidsDrawn (n : nat) (m : AssetManager) : AssetManager :=
  {| projectFolder := projectFolder m; serializers := serializers m;
     registry := registry m; assets := assets m;
     sortedAssets := sortedAssets m; uuidsDrawn := n |}.

(** ** Strings as [std::string] uses them *)

(** [s.find_last_of (c)]; [std::string::npos] is [None]. *)
Fixpoint find_last_of (s : string) (c : ascii) : option nat :=
  match s with
  | EmptyString => None
  | String a s' =>
      match find_last_of s' c with
      | Some i => Some (S i)
      | None => if Ascii.eqb a c then Some 0 else None
      end
  end.

(** [s.substr (pos, len)] and [s.substr (pos)], for [pos <= s.length ()]. *)
Definition substr (s : string) (pos len : nat) : string :=
  String.substring pos len s.
Definition substr_from (s : string) (pos : nat) : string :=
  String.substring pos (String.length s - pos) s.

(** Does the character occur in the string? *)
Fixpoint occurs (c : ascii) (s : string) : bool :=
  match s with
  | EmptyString => false
  | String a s' => Ascii.eqb a c || occurs c s'
  end.

(** Lines 43-58 of [createEmptyAsset]: the two derived names. *)
Definition filename_of (path : string) : string :=
  let filenameIndex := find_last_of path "/" in
  match filenameIndex with
  | None => ""
  | Some i =>
      if Nat.eqb (i + 1) (String.length path) then substr path 0 i
      else substr_from path (i + 1)
  end.

Definition extension_of (path : string) : string :=
  let extentionIndex := find_last_of path "." in
  match extentionIndex with
  | Some i => substr_from path (i + 1)
  | None => ""
  end.

(** ** The file system

    The file system as the scan sees it: [directory_iterator] yields the
    entries of a directory in some order, each with its generic path and
    with [is_directory ()]. *)

#[local] Set Warnings "-register-all".
Inductive FsEntry : Type :=
  | FsFile (path_ : string)
  | FsDir (path_ : string) (entries : list FsEntry).

Definition fs_path (e : FsEntry) : string :=
  match e with FsFile p => p | FsDir p _ => p end.

(** Every path of a tree, the root first, in the order of the scan. *)
Fixpoint fs_paths (e : FsEntry) : list string :=
  match e with
  | FsFile p => [p]
  | FsDir p es => p :: concat (map fs_paths es)
  end.

Section AssetManager.

(** The sequence of values the generator behind [UUID ()] produces: the
    handle drawn when [n] handles were drawn before. *)
Variable uuid_gen : nat → UUID.t.

(** [getAssetTypeFromPath], the classifier of paths. *)
Variable getAssetTypeFromPath : string → AssetType.t.

(** The bracketing markers of an embedded path. *)
Variables XE_HOST_PATH_BEGIN XE_HOST_PATH_END : string.

(** What a loader does when it is called on the manager and on the asset
    behind the [Asset**]: its flag, the manager and the asset after it. *)
Variable call_load :
  AssetLoadFunc → AssetManager → Asset → bool * (AssetManager * Asset).

(** Modelled from the spec: the constructor [UUID ()] generates a fresh
    handle; here it is the next value of the generator. *)
Definition UUID_new (manager : AssetManager) : UUID.t * AssetManager :=
  (uuid_gen (uuidsDrawn manager),
   set_uuidsDrawn (S (uuidsDrawn manager)) manager).

(** [createEmptyAsset]: the new object, and the manager, of which only
    the generator can have changed. *)
Definition createEmptyAsset (manager : AssetManager) (path_ : string)
    (type_ : AssetType.t) (parent_ : UUID.t) : Asset * AssetManager :=
  let children0 :=
    if decide (type_ = AssetType.Directory) then Some [] else None in
  let mk h t :=
    {| metadata := {| handle := h; path := path_; type := t |};
       runtimeData := {| filename := filename_of path_;
                         extension := extension_of path_;
                         parent := parent_;
                         loaded := false |};
       children := children0 |} in
  match registry manager !! path_ with
  | Some md =>
      (* already in the registry: copy the metadata *)
      if decide (type md ≠ type_)
      then (mk (handle md) AssetType.None, manager)
      else (mk (handle md) (type md), manager)
  | None =>
      (* new asset *)
      let '(h, manager') := UUID_new manager in
      (mk h type_, manager')
  end.

(** Modelled from the spec: [copyAssetMetadata (source, target)] is
    defined outside this translation unit.  It copies the identity the
    transient object obtained onto the caller's object, together with the
    runtime data that carry the parent link; the class of the target and
    its children stay. *)
Definition copyAssetMetadata (source target : Asset) : Asset :=
  {| metadata := metadata source;
     runtimeData := runtimeData source;
     children := children target |}.

(** [createEmbeddedAsset]: the caller's [dataAsset] after the call, and
    the manager.  The transient [metaAsset] is deleted. *)
Definition createEmbeddedAsset (manager : AssetManager)
    (type_ : AssetType.t) (dataAsset : Asset)
    (parentPath internalPath : string) : Result (Asset * AssetManager) :=
  match registry manager !! parentPath with
  | None => Raise OutOfRange
  | Some md =>
      let parentID := handle md in
      let embeddedPath :=
        XE_HOST_PATH_BEGIN +:+ parentPath +:+ XE_HOST_PATH_END
                           +:+ internalPath in
      let '(metaAsset, manager') :=
        createEmptyAsset manager embeddedPath type_ parentID in
      Ok (copyAssetMetadata metaAsset dataAsset, manager')
  end.

(** [loadAssetData]: the returned flag, the manager and the asset behind
    the [Asset**] after the call.  The asset is the caller's object; for
    an object of the live store the caller puts the returned asset back
    under its handle. *)
Definition loadAssetData (manager : AssetManager) (asset : Asset)
  : Result (bool * (AssetManager * Asset)) :=
  if decide (type (metadata asset) = AssetType.Directory) then
    Ok (false, (manager, asset))
  else
    match serializers manager !! type (metadata asset) with
    | None => Raise OutOfRange
    | Some serializer =>
        match load serializer with
        | Some loadFunc =>
            let '(flag, (manager', asset')) :=
              call_load loadFunc manager asset in
            Ok (flag, (manager', set_loaded flag asset'))
        | None => Raise MissingReturn
        end
    end.

(** Lines 112-114 and 130-132: register the metadata of an asset whose
    path the registry does not have. *)
Definition register_if_needed (asset : Asset) (manager : AssetManager)
  : AssetManager :=
  match registry manager !! path (metadata asset) with
  | None =>
      set_registry
        (<[path (metadata asset) := metadata asset]> (registry manager))
        manager
  | Some _ => manager
  end.

(** Lines 117-122 and 135-138: the object stored under the handle, an
    earlier one deleted and replaced. *)
Definition store_asset (asset : Asset) (manager : AssetManager)
  : AssetManager :=
  set_assets (<[handle (metadata asset) := asset]> (assets manager)) manager.

Definition importAsset (manager : AssetManager) (path_ : string)
    (parent_ : UUID.t) : AssetManager :=
  let type_ := getAssetTypeFromPath path_ in
  let '(asset, manager1) := createEmptyAsset manager path_ type_ parent_ in
  store_asset asset (register_if_needed asset manager1).

(** Lines 140-143: a directory with a parent adds itself as a child. *)
Definition link_to_parent (h parent_ : UUID.t) (manager : AssetManager)
  : Result AssetManager :=
  if UUID.isValid parent_ then
    match assets manager !! parent_ with
    | None => Raise OutOfRange
    | Some p =>
        do p' <- push_child h p;
        Ok (set_assets (<[parent_ := p']> (assets manager)) manager)
    end
  else Ok manager.

(** Lines 126-138: the directory object created, registered and stored. *)
Definition enter_directory (manager : AssetManager) (path_ : string)
    (parent_ : UUID.t) : UUID.t * AssetManager :=
  let '(asset, manager1) :=
    createEmptyAsset manager path_ AssetType.Directory parent_ in
  let directory := set_loaded true asset in
  (handle (metadata directory),
   store_asset directory (register_if_needed directory manager1)).

(** [updateDirectoryAssets (manager, path, parent)], where the file
    system has [e] at [path].  At a path that is no directory the code
    creates, registers, stores and links the object as for a directory
    and [directory_iterator] throws then.  The handle given to the
    entries is the one of the object created; the code reads it through
    the pointer [directory] at each entry, which is the same as long as no
    entry is registered under the directory's own handle, where the
    object would be deleted while the loop runs. *)
Fixpoint updateDirectoryAssets (manager : AssetManager) (e : FsEntry)
    (parent_ : UUID.t) : Result (UUID.t * AssetManager) :=
  match e with
  | FsFile path_ =>
      (* Lines 126-143 run before the iterator of line 146 throws. *)
      let '(h, manager1) := enter_directory manager path_ parent_ in
      do _ <- link_to_parent h parent_ manager1;
      Raise FilesystemError
  | FsDir path_ entries =>
      let '(h, manager1) := enter_directory manager path_ parent_ in
      do manager2 <- link_to_parent h parent_ manager1;
      do manager3 <-
        (fix iterate (es : list FsEntry) (mgr : AssetManager)
           : Result AssetManager :=
           match es with
           | [] => Ok mgr
           | FsFile p :: es' => iterate es' (importAsset mgr p h)
           | (FsDir _ _ as d) :: es' =>
               do r <- updateDirectoryAssets mgr d h;
               iterate es' (snd r)
           end) entries manager2;
      Ok (h, manager3)
  end.

(** The loop of lines 146-153 on its own. *)
Definition scan_entries (h : UUID.t)
  : list FsEntry → AssetManager → Result AssetManager :=
  fix iterate (es : list FsEntry) (mgr : AssetManager)
    : Result AssetManager :=
    match es with
    | [] => Ok mgr
    | FsFile p :: es' => iterate es' (importAsset mgr p h)
    | (FsDir _ _ as d) :: es' =>
        do r <- updateDirectoryAssets mgr d h;
        iterate es' (snd r)
    end.

(** [importAsset] and the first lines of [updateDirectoryAssets] do the
    same with the object they create: they register it if needed and
    store it, the directory after [upd] has set its [loaded] flag. *)
Definition install (upd : Asset → Asset) (m : AssetManager) (p : string)
    (ty : AssetType.t) (par : UUID.t) : AssetManager :=
  store_asset (upd (createEmptyAsset m p ty par).1)
    (register_if_needed (upd (createEmptyAsset m p ty par).1)
                        (createEmptyAsset m p ty par).2).

End AssetManager.

(** ** The sorted view *)

(** [std::tolower] in the "C" locale. *)
Definition tolower (c : ascii) : ascii :=
  if Ascii.leb "A" c && Ascii.leb c "Z"
  then ascii_of_nat (nat_of_ascii c + 32)
  else c.

Fixpoint lowercase (s : string) : string :=
  match s with
  | EmptyString => EmptyString
  | String c s' => String (tolower c) (lowercase s')
  end.

(** [SortAssets::operator()]. *)
Definition SortAssets (a b : UUID.t * Asset) : bool :=
  let aFilename := lowercase (filename (runtimeData (snd a))) in
  let bFilename := lowercase (filename (runtimeData (snd b))) in
  AssetType.ltb (type (metadata (snd a))) (type (metadata (snd b)))
  || (bool_decide (type (metadata (snd a)) = type (metadata (snd b)))
      && String.ltb aFilename bFilename).

(** [std::sort (first, last, comp)]: the elements rearranged so that no
    element is [comp]-less than one before it.  The order among equivalent
    elements is unspecified in C++; a merge sort fixes one. *)
Definition not_after {A : Type} (comp : A → A → bool) : relation A :=
  λ x y, comp y x = false.

Global Instance not_after_dec {A} (comp : A → A → bool) x y :
  Decision (not_after comp x y).
Proof. unfold not_after. apply _. Defined.

Definition std_sort {A : Type} (comp : A → A → bool) (l : list A) : list A :=
  merge_sort (not_after comp) l.

Definition updateAssetRegistry (manager : AssetManager) : AssetManager :=
  let sorted := std_sort SortAssets (map_to_list (assets manager)) in
  (* Clear registry *)
  let kept :=
    filter (λ entry, is_Some (assets manager !! handle (snd entry)))
           (registry manager) in
  set_registry kept (set_sortedAssets sorted manager).

(** ** Construction *)

Section Construction.
Variable uuid_gen : nat → UUID.t.
Variable getAssetTypeFromPath : string → AssetType.t.

(** The serializers loaded by [createAssetManager]. *)
Definition initial_serializers : gmap AssetType.t AssetSerializer :=
  <[AssetType.Texture := {| save := None; load := Some loadTextureAsset |}]>
    (<[AssetType.Model := {| save := None; load := Some loadModelAsset |}]>
       ∅).

(** [new AssetManager ()], the generator having produced [drawn] handles. *)
Definition new_AssetManager (drawn : nat) : AssetManager :=
  {| projectFolder := ""; serializers := ∅; registry := ∅; assets := ∅;
     sortedAssets := []; uuidsDrawn := drawn |}.

(** [createAssetManager (projectFolder)], where the file system has [fs]
    at [projectFolder].  The returned manager is also kept in the static
    [s_assetManager], which nothing in this translation unit reads. *)
Definition createAssetManager (fs : FsEntry) (drawn : nat)
  : Result AssetManager :=
  let manager := new_AssetManager drawn in
  let manager :=
    {| projectFolder := fs_path fs; serializers := initial_serializers;
       registry := registry manager; assets := assets manager;
       sortedAssets := sortedAssets manager;
       uuidsDrawn := uuidsDrawn manager |} in
  do r <- updateDirectoryAssets uuid_gen getAssetTypeFromPath manager fs
                                UUID.None;
  Ok (updateAssetRegistry (snd r)).
End Construction.

(** ** Well-formed managers *)

(** The handle is stored by some entry of the registry. *)
Definition registered (m : AssetManager) (h : UUID.t) : Prop :=
  ∃ p md, registry m !! p = Some md ∧ handle md = h.

(** Every live asset is known to the registry: some entry stores its
    handle. *)
Definition live_registered (m : AssetManager) : Prop :=
  ∀ h, is_Some (assets m !! h) → registered m h.

(** Distinct paths of the registry have distinct handles. *)
Definition registry_injective (m : AssetManager) : Prop :=
  ∀ p1 p2 md1 md2,
    registry m !! p1 = Some md1 → registry m !! p2 = Some md2 →
    handle md1 = handle md2 → p1 = p2.

(** No entry of the registry stores the sentinel. *)
Definition registry_valid (m : AssetManager) : Prop :=
  ∀ p md, registry m !! p = Some md → handle md ≠ UUID.None.

(** From now on the generator yields handles that are valid, that the
    registry does not store, and that differ from each other: handles
    "never collide". *)
Definition generator_fresh (uuid_gen : nat → UUID.t) (m : AssetManager)
  : Prop :=
  ∀ n, (uuidsDrawn m ≤ n)%nat →
       uuid_gen n ≠ UUID.None
       ∧ ¬ registered m (uuid_gen n)
       ∧ ∀ n', (uuidsDrawn m ≤ n')%nat → uuid_gen n = uuid_gen n' → n = n'.

(** The ASCII case fold in the words of the description of the sorted
    view: each of the twenty-six capital letters becomes its small letter,
    every other character stays; a name is folded character by
    character. *)
Definition ascii_casefold (c : ascii) : ascii :=
  match c with
  | "A" => "a" | "B" => "b" | "C" => "c" | "D" => "d" | "E" => "e"
  | "F" => "f" | "G" => "g" | "H" => "h" | "I" => "i" | "J" => "j"
  | "K" => "k" | "L" => "l" | "M" => "m" | "N" => "n" | "O" => "o"
  | "P" => "p" | "Q" => "q" | "R" => "r" | "S" => "s" | "T" => "t"
  | "U" => "u" | "V" => "v" | "W" => "w" | "X" => "x" | "Y" => "y"
  | "Z" => "z"
  | _ => c
  end%char.

Definition casefold (s : string) : string :=
  string_of_list_ascii (map ascii_casefold (list_ascii_of_string s)).

(** The order of the sorted view in the words of its description: the
    ordinal of the type first, then the case-folded filename, compared
    character by character. *)
Definition sort_key_le (a b : UUID.t * Asset) : Prop :=
  let ta := AssetType.ordinal (type (metadata (snd a))) in
  let tb := AssetType.ordinal (type (metadata (snd b))) in
  let fa := casefold (filename (runtimeData (snd a))) in
  let fb := casefold (filename (runtimeData (snd b))) in
  (ta < tb)%nat ∨ (ta = tb ∧ String.leb fa fb = true).

(** One pair is strictly before the other in that order. *)
Definition sort_key_lt (a b : UUID.t * Asset) : Prop :=
  let ta := AssetType.ordinal (type (metadata (snd a))) in
  let tb := AssetType.ordinal (type (metadata (snd b))) in
  let fa := casefold (filename (runtimeData (snd a))) in
  let fb := casefold (filename (runtimeData (snd b))) in
  (ta < tb)%nat ∨ (ta = tb ∧ String.ltb fa fb = true).

(** The handle the registry stores for a path. *)
Definition handle_of (m : AssetManager) (p : string) : UUID.t :=
  from_option handle UUID.None (registry m !! p).

(** The same object with another vector of children. *)
Definition with_children (a : Asset) (l : list UUID.t) : Asset :=
  {| metadata := metadata a; runtimeData := runtimeData a;
     children := Some l |}.

(** The handles of the sub-directories among the entries, in the order of
    the enumeration. *)
Fixpoint subdirectory_handles (m : AssetManager) (es : list FsEntry)
  : list UUID.t :=
  match es with
  | [] => []
  | FsFile _ :: es' => subdirectory_handles m es'
  | FsDir p _ :: es' => handle_of m p :: subdirectory_handles m es'
  end.

(** The handles of all the entries, files too, in the order of the
    enumeration. *)
Definition entry_handles (m : AssetManager) (es : list FsEntry)
  : list UUID.t :=
  map (λ e, handle_of m (fs_path e)) es.

(** [par] is the handle of a registered path outside [paths] and its
    live object is a directory. *)
Definition parent_live (m : AssetManager) (par : UUID.t)
    (paths : list string) : Prop :=
  ∃ pp mdp a l,
    registry m !! pp = Some mdp ∧ handle mdp = par ∧ (pp ∉ paths)
    ∧ assets m !! par = Some a ∧ children a = Some l.

(** A scan of [paths] may be started under [par]: it is the sentinel, as
    for the project folder, or such a directory. *)
Definition parent_ready (m : AssetManager) (par : UUID.t)
    (paths : list string) : Prop :=
  par = UUID.None ∨ parent_live m par paths.

(** The registry and the generator together. *)
Definition well_formed (uuid_gen : nat → UUID.t) (m : AssetManager) : Prop :=
  registry_injective m ∧ registry_valid m ∧ generator_fresh uuid_gen m.

(** ** Consistent managers *)

(** Every entry of the registry is stored under its own path. *)
Definition registry_keyed (m : AssetManager) : Prop :=
  ∀ p md, registry m !! p = Some md → path md = p.

(** Every live asset is stored under its own handle, and the registry has
    the path of the asset under that handle. *)
Definition live_has_entry (m : AssetManager) : Prop :=
  ∀ h a, assets m !! h = Some a →
         handle (metadata a) = h
         ∧ ∃ md, registry m !! path (metadata a) = Some md ∧ handle md = h.

(** A live asset of type Directory is an object of the class
    [Directory]. *)
Definition directories_typed (m : AssetManager) : Prop :=
  ∀ h a, assets m !! h = Some a →
         type (metadata a) = AssetType.Directory → is_Some (children a).

Definition consistent (m : AssetManager) : Prop :=
  registry_keyed m ∧ live_has_entry m ∧ directories_typed m.

(** The comparator as a relation. *)
Definition sorts_before (a b : UUID.t * Asset) : Prop :=
  SortAssets a b = true.

Section ScanSpecification.
Variable uuid_gen : nat → UUID.t.
Variable getAssetTypeFromPath : string → AssetType.t.

(** ** What a completed scan has done *)

Record scan_post (m : AssetManager) (par : UUID.t) (e : FsEntry)
    (m' : AssetManager) : Prop := {
  post_well_formed : well_formed uuid_gen m';
  post_registry_mono : registry m ⊆ registry m';
  post_registered : ∀ p, p ∈ fs_paths e → is_Some (registry m' !! p);
  post_asset :
    ∃ a, assets m' !! handle_of m' (fs_path e) = Some a
         ∧ handle (metadata a) = handle_of m' (fs_path e)
         ∧ path (metadata a) = fs_path e
         ∧ parent (runtimeData a) = par
         ∧ match e with
           | FsDir _ es => children a = Some (subdirectory_handles m' es)
           | FsFile _ => True
           end;
  post_all :
    ∀ p, p ∈ fs_paths e →
         ∃ a, assets m' !! handle_of m' p = Some a
              ∧ handle (metadata a) = handle_of m' p
              ∧ path (metadata a) = p;
  post_entries :
    match e with
    | FsDir p es =>
        ∀ q, q ∈ es →
             ∃ a, assets m' !! handle_of m' (fs_path q) = Some a
                  ∧ path (metadata a) = fs_path q
                  ∧ parent (runtimeData a) = handle_of m' p
    | FsFile _ => True
    end;
  post_frame :
    ∀ h, h ≠ par → (∀ p, p ∈ fs_paths e → handle_of m' p ≠ h) →
         assets m' !! h = assets m !! h;
  post_parent :
    ∀ a l, UUID.isValid par = true →
           assets m !! par = Some a → children a = Some l →
           assets m' !! par
           = Some (with_children a
                     (l ++ match e with
                           | FsDir p _ => [handle_of m' p]
                           | FsFile _ => []
                           end))
}.

Record loop_post (m : AssetManager) (h : UUID.t) (es : list FsEntry)
    (m' : AssetManager) : Prop := {
  loop_well_formed : well_formed uuid_gen m';
  loop_registry_mono : registry m ⊆ registry m';
  loop_registered :
    ∀ p, p ∈ concat (map fs_paths es) → is_Some (registry m' !! p);
  loop_all :
    ∀ p, p ∈ concat (map fs_paths es) →
         ∃ a, assets m' !! handle_of m' p = Some a
              ∧ handle (metadata a) = handle_of m' p
              ∧ path (metadata a) = p;
  loop_entries :
    ∀ q, q ∈ es →
         ∃ a, assets m' !! handle_of m' (fs_path q) = Some a
              ∧ path (metadata a) = fs_path q
              ∧ parent (runtimeData a) = h;
  loop_frame :
    ∀ h', h' ≠ h →
          (∀ p, p ∈ concat (map fs_paths es) → handle_of m' p ≠ h') →
          assets m' !! h' = assets m !! h';
  loop_parent :
    ∀ a l, assets m !! h = Some a → children a = Some l →
           assets m' !! h
           = Some (with_children a (l ++ subdirectory_handles m' es))
}.

Definition entry_spec (e : FsEntry) : Prop :=
  ∀ m par,
    well_formed uuid_gen m → NoDup (fs_paths e) →
    parent_ready m par (fs_paths e) →
    match e with
    | FsFile p =>
        scan_post m par e (importAsset uuid_gen getAssetTypeFromPath m p par)
    | FsDir _ _ =>
        ∃ h m', updateDirectoryAssets uuid_gen getAssetTypeFromPath m e par
                = Ok (h, m')
                ∧ h = handle_of m' (fs_path e)
                ∧ scan_post m par e m'
    end.

End ScanSpecification.

(** ** Sample inputs *)

Module Sample.

(** A generator that never yields the sentinel and never repeats. *)
Definition gen (n : nat) : UUID.t := N.of_nat (100 + n).

(** A classifier by extension. *)
Definition classify (p : string) : AssetType.t :=
  if String.eqb (extension_of p) "png" then AssetType.Texture
  else if String.eqb (extension_of p) "fbx" then AssetType.Model
  else if String.eqb (extension_of p) "model" then AssetType.Model
  else AssetType.None.

(** Loaders that succeed and touch nothing. *)
Definition loader (f : AssetLoadFunc) (m : AssetManager) (a : Asset)
  : bool * (AssetManager * Asset) := (true, (m, a)).

(** An asset of the given type, not loaded, without a parent. *)
Definition plain_asset (h : UUID.t) (p : string) (t : AssetType.t) : Asset :=
  {| metadata := {| handle := h; path := p; type := t |};
     runtimeData := {| filename := filename_of p;
                       extension := extension_of p;
                       parent := UUID.None; loaded := false |};
     children := None |}.

(** A manager with the given serializers and nothing else. *)
Definition manager_with (s : gmap AssetType.t AssetSerializer)
  : AssetManager :=
  {| projectFolder := "/p"; serializers := s; registry := ∅; assets := ∅;
     sortedAssets := []; uuidsDrawn := 0 |}.

(** The entry of [/p/a.model], imported as a Model under handle 7. *)
Definition model_md : AssetMetadata :=
  {| handle := 7%N; path := "/p/a.model"; type := AssetType.Model |}.

(** The project tree [/root] with [b.txt], [a.txt] and [sub/], in this
    order of enumeration. *)
Definition root_entries : list FsEntry :=
  [FsFile "/root/b.txt"; FsFile "/root/a.txt"; FsDir "/root/sub" []].
Definition root_tree : FsEntry := FsDir "/root" root_entries.

(** The project tree [/proj] with [textures/tex1.png] and
    [models/mesh1.fbx]. *)
Definition proj_tree : FsEntry :=
  FsDir "/proj"
    [FsDir "/proj/textures" [FsFile "/proj/textures/tex1.png"];
     FsDir "/proj/models" [FsFile "/proj/models/mesh1.fbx"]].

(** A manager whose live store has an asset that the registry does not
    know, as an embedded asset stored by a loader is. *)
Definition manager_unregistered : AssetManager :=
  {| projectFolder := "/p"; serializers := initial_serializers;
     registry := ∅;
     assets := {[ 5%N := plain_asset 5%N "</p/scene.fbx>submesh0"
                                     AssetType.Model ]};
     sortedAssets := []; uuidsDrawn := 0 |}.

(** The entry of [/p/scene.fbx], registered under handle 7, and a manager
    that has it. *)
Definition scene_md : AssetMetadata :=
  {| handle := 7%N; path := "/p/scene.fbx"; type := AssetType.Model |}.

Definition manager_scene : AssetManager :=
  {| projectFolder := "/p"; serializers := initial_serializers;
     registry := {[ "/p/scene.fbx" := scene_md ]};
     assets := {[ 7%N := plain_asset 7%N "/p/scene.fbx" AssetType.Model ]};
     sortedAssets := []; uuidsDrawn := 0 |}.

(** A manager that has imported [/p/a.model]. *)
Definition manager_a_model : AssetManager :=
  {| projectFolder := "/p"; serializers := initial_serializers;
     registry := {[ "/p/a.model" := model_md ]};
     assets := {[ 7%N := plain_asset 7%N "/p/a.model" AssetType.Model ]};
     sortedAssets := []; uuidsDrawn := 0 |}.

(** The manager after the first and after the second scan of [/root] from
    an empty manager, and the manager constructed over [/root]. *)
Definition root_scanned : AssetManager :=
  match updateDirectoryAssets gen classify (new_AssetManager 0) root_tree
                              UUID.None with
  | Ok r => r.2
  | Raise _ => new_AssetManager 0
  end.

Definition root_rescanned : AssetManager :=
  match updateDirectoryAssets gen classify root_scanned root_tree
                              UUID.None with
  | Ok r => r.2
  | Raise _ => new_AssetManager 0
  end.

Definition root_manager : AssetManager :=
  match createAssetManager gen classify root_tree 0 with
  | Ok m => m
  | Raise _ => new_AssetManager 0
  end.

(** A manager that has the directory [/top] live and registered under
    handle 7, and the tree [/top/sub] below it. *)
Definition top_md : AssetMetadata :=
  {| handle := 7%N; path := "/top"; type := AssetType.Directory |}.

Definition top_directory : Asset :=
  {| metadata := top_md;
     runtimeData := {| filename := "top"; extension := "";
                       parent := UUID.None; loaded := true |};
     children := Some [] |}.

Definition manager_top : AssetManager :=
  {| projectFolder := "/top"; serializers := initial_serializers;
     registry := {[ "/top" := top_md ]};
     assets := {[ 7%N := top_directory ]};
     sortedAssets := []; uuidsDrawn := 0 |}.

Definition sub_tree : FsEntry := FsDir "/top/sub" [].

(** A live store whose filenames differ in case: [B.txt] and [a.txt]
    without a type, the directory [Zeta], the textures [C.png] and
    [b.PNG]. *)
Definition manager_mixed_case : AssetManager :=
  {| projectFolder := "/p"; serializers := initial_serializers;
     registry := ∅;
     assets :=
       <[1%N := plain_asset 1%N "/p/B.txt" AssetType.None]>
         (<[2%N := plain_asset 2%N "/p/a.txt" AssetType.None]>
            (<[3%N := plain_asset 3%N "/p/Zeta" AssetType.Directory]>
               (<[4%N := plain_asset 4%N "/p/C.png" AssetType.Texture]>
                  (<[5%N := plain_asset 5%N "/p/b.PNG" AssetType.Texture]>
                     ∅))));
     sortedAssets := []; uuidsDrawn := 0 |}.

End Sample.

(** * Properties *)

(** ** Path decomposition *)

Section Strings.

Lemma find_last_of_absent (s : string) (c : ascii) :
  occurs c s = false → find_last_of s c = None.
Proof.
  induction s as [|a s IH]; simpl; [done|].
  intros [Ha Hs]%orb_false_iff. by rewrite IH, Ha.
Qed.

Lemma find_last_of_app (q r : string) (c : ascii) :
  occurs c r = false →
  find_last_of (q +:+ String c r) c = Some (String.length q).
Proof.
  intros Hr. induction q as [|a q IH]; simpl.
  - by rewrite find_last_of_absent, Ascii.eqb_refl.
  - by rewrite IH.
Qed.

Lemma length_app (q r : string) :
  String.length (q +:+ r) = String.length q + String.length r.
Proof. induction q as [|a q IH]; simpl; [done|by rewrite IH]. Qed.

Lemma substring_all (r : string) :
  String.substring 0 (String.length r) r = r.
Proof. induction r as [|a r IH]; simpl; [done|by rewrite IH]. Qed.

Lemma substring_prefix (q r : string) :
  String.substring 0 (String.length q) (q +:+ r) = q.
Proof.
  induction q as [|a q IH]; simpl; [by destruct r|by rewrite IH].
Qed.

Lemma substring_suffix (q r : string) (n : nat) :
  String.substring (String.length q) n (q +:+ r) = String.substring 0 n r.
Proof. induction q as [|a q IH]; simpl; [done|by rewrite IH]. Qed.

Lemma substring_skip (q r : string) (n : nat) :
  String.substring (String.length q + n) (String.length r - n) (q +:+ r)
  = String.substring n (String.length r - n) r.
Proof. induction q as [|a q IH]; simpl; [done|by rewrite IH]. Qed.

Lemma substr_from_app (q r : string) (c : ascii) :
  substr_from (q +:+ String c r) (String.length q + 1) = r.
Proof.
  unfold substr_from. rewrite length_app.
  replace (String.length q + String.length (String c r)
           - (String.length q + 1))
    with (String.length (String c r) - 1) by (simpl; lia).
  rewrite substring_skip. simpl. rewrite Nat.sub_0_r.
  apply substring_all.
Qed.

Lemma filename_of_no_separator (p : string) :
  occurs "/" p = false → filename_of p = "".
Proof. intros H. unfold filename_of. by rewrite find_last_of_absent. Qed.

Lemma filename_of_trailing (q : string) : filename_of (q +:+ "/") = q.
Proof.
  unfold filename_of. rewrite find_last_of_app by done.
  rewrite length_app. simpl. rewrite Nat.eqb_refl.
  apply substring_prefix.
Qed.

Lemma filename_of_last_component (q r : string) :
  r ≠ "" → occurs "/" r = false → filename_of (q +:+ String "/" r) = r.
Proof.
  intros Hne Hr. unfold filename_of. rewrite find_last_of_app by done.
  rewrite length_app. simpl.
  destruct (Nat.eqb_spec (String.length q + 1)
                         (String.length q + S (String.length r))) as [E|_].
  - destruct r; [done|simpl in E; lia].
  - apply substr_from_app.
Qed.

Lemma extension_of_last_dot (q r : string) :
  occurs "." r = false → extension_of (q +:+ String "." r) = r.
Proof.
  intros Hr. unfold extension_of. rewrite find_last_of_app by done.
  apply substr_from_app.
Qed.

Lemma extension_of_no_dot (p : string) :
  occurs "." p = false → extension_of p = "".
Proof. intros H. unfold extension_of. by rewrite find_last_of_absent. Qed.

End Strings.

(** ** Asset creation *)

Section Creation.
Variable uuid_gen : nat → UUID.t.

#[local] Abbreviation createEmptyAsset := (createEmptyAsset uuid_gen).

Lemma createEmptyAsset_path m p ty par :
  path (metadata (fst (createEmptyAsset m p ty par))) = p.
Proof.
  unfold createEmptyAsset.
  destruct (registry m !! p); [by case_decide|done].
Qed.

Lemma createEmptyAsset_runtimeData m p ty par :
  runtimeData (fst (createEmptyAsset m p ty par))
  = {| filename := filename_of p; extension := extension_of p;
       parent := par; loaded := false |}.
Proof.
  unfold createEmptyAsset.
  destruct (registry m !! p); [by case_decide|done].
Qed.

Lemma createEmptyAsset_children m p ty par :
  children (fst (createEmptyAsset m p ty par))
  = if decide (ty = AssetType.Directory) then Some [] else None.
Proof.
  unfold createEmptyAsset.
  destruct (registry m !! p); [by case_decide|done].
Qed.

Lemma createEmptyAsset_found m p ty par md :
  registry m !! p = Some md →
  handle (metadata (fst (createEmptyAsset m p ty par))) = handle md
  ∧ snd (createEmptyAsset m p ty par) = m.
Proof.
  intros H. unfold createEmptyAsset. rewrite H. by case_decide.
Qed.

Lemma createEmptyAsset_new m p ty par :
  registry m !! p = None →
  metadata (fst (createEmptyAsset m p ty par))
  = {| handle := uuid_gen (uuidsDrawn m); path := p; type := ty |}
  ∧ snd (createEmptyAsset m p ty par)
    = set_uuidsDrawn (S (uuidsDrawn m)) m.
Proof. intros H. unfold createEmptyAsset. by rewrite H. Qed.

(** C9. Path decomposition: [createEmptyAsset] gives an empty filename
    to a path without ['/'], everything before the separator to a path
    that ends in ['/'], and otherwise what follows the last ['/']; the
    extension is what follows the last ['.'] of the whole path, and is
    empty when the path has no ['.']. *)
Theorem createEmptyAsset_path_decomposition
    (m : AssetManager) (ty : AssetType.t) (par : UUID.t) :
  let fname p := filename (runtimeData (fst (createEmptyAsset m p ty par))) in
  let ext p := extension (runtimeData (fst (createEmptyAsset m p ty par))) in
  (∀ p, occurs "/" p = false → fname p = "")
  ∧ (∀ q, fname (q +:+ "/") = q)
  ∧ (∀ q r, r ≠ "" → occurs "/" r = false → fname (q +:+ "/" +:+ r) = r)
  ∧ (∀ q r, occurs "." r = false → ext (q +:+ "." +:+ r) = r)
  ∧ (∀ p, occurs "." p = false → ext p = "").
Proof.
  simpl. repeat split; intros; rewrite createEmptyAsset_runtimeData; simpl.
  - by apply filename_of_no_separator.
  - apply filename_of_trailing.
  - by apply filename_of_last_component.
  - by apply extension_of_last_dot.
  - by apply extension_of_no_dot.
Qed.

(** C3. Type-mismatch policy: for a path the registry has with type
    [T1], [createEmptyAsset] with a declared type [T2 ≠ T1] returns an
    asset of type [None] that carries the handle stored in the
    registry. *)
Theorem createEmptyAsset_type_mismatch
    (m : AssetManager) (p : string) (T2 : AssetType.t) (par : UUID.t)
    (md : AssetMetadata) :
  registry m !! p = Some md →
  type md ≠ T2 →
  let asset := fst (createEmptyAsset m p T2 par) in
  type (metadata asset) = AssetType.None
  ∧ handle (metadata asset) = handle md.
Proof.
  intros Hreg Hne. simpl. unfold createEmptyAsset. rewrite Hreg.
  by rewrite decide_True.
Qed.

End Creation.

(** ** Load dispatch *)

Section Loading.
Variable call_load :
  AssetLoadFunc → AssetManager → Asset → bool * (AssetManager * Asset).

#[local] Abbreviation loadAssetData := (loadAssetData call_load).

Lemma loadAssetData_directory m a :
  type (metadata a) = AssetType.Directory →
  loadAssetData m a = Ok (false, (m, a)).
Proof. intros H. unfold loadAssetData. by rewrite decide_True. Qed.

Lemma loadAssetData_bound m a s f :
  type (metadata a) ≠ AssetType.Directory →
  serializers m !! type (metadata a) = Some s →
  load s = Some f →
  loadAssetData m a
  = Ok (fst (call_load f m a),
        (fst (snd (call_load f m a)),
         set_loaded (fst (call_load f m a)) (snd (snd (call_load f m a))))).
Proof.
  intros Hd Hs Hf. unfold loadAssetData.
  rewrite decide_False, Hs, Hf by done.
  by destruct (call_load f m a) as [flag [m' a']].
Qed.

Lemma loadAssetData_unregistered m a :
  type (metadata a) ≠ AssetType.Directory →
  serializers m !! type (metadata a) = None →
  loadAssetData m a = Raise OutOfRange.
Proof.
  intros Hd Hs. unfold loadAssetData. by rewrite decide_False, Hs.
Qed.

Lemma loadAssetData_null_loader m a s :
  type (metadata a) ≠ AssetType.Directory →
  serializers m !! type (metadata a) = Some s →
  load s = None →
  loadAssetData m a = Raise MissingReturn.
Proof.
  intros Hd Hs Hf. unfold loadAssetData. by rewrite decide_False, Hs, Hf.
Qed.

Lemma loadAssetData_out_of_range_iff m a :
  loadAssetData m a = Raise OutOfRange
  ↔ type (metadata a) ≠ AssetType.Directory
    ∧ serializers m !! type (metadata a) = None.
Proof.
  unfold loadAssetData. case_decide as Hd.
  { split; [done|]. by intros [? _]. }
  destruct (serializers m !! type (metadata a)) as [s|]; [|by split].
  destruct (load s) as [f|].
  - destruct (call_load f m a) as [flag [m' a']].
    split; [done|]. by intros [_ ?].
  - split; [done|]. by intros [_ ?].
Qed.

(** C5. Load dispatch on an asset without a bound loader: a type that
    has no serializer makes [serializers.at] throw, and a serializer
    whose [load] is null lets control reach the end of the function; in
    neither case is [false] returned. *)
Theorem loadAssetData_no_loader_bound :
  loadAssetData (Sample.manager_with initial_serializers)
                (Sample.plain_asset 1%N "/p/a.bin" AssetType.None)
  = Raise OutOfRange
  ∧ loadAssetData
      (Sample.manager_with {[ AssetType.Model := {| save := None; load := None |} ]})
      (Sample.plain_asset 1%N "/p/a.fbx" AssetType.Model)
    = Raise MissingReturn.
Proof. split; reflexivity. Qed.

(** C10. With the serializers registered at construction (Model and
    Texture only), [loadAssetData] returns a result exactly for the assets
    whose type is Directory, Model or Texture; for every other type, and
    so for [None], the lookup [serializers.at] throws [out_of_range]
    instead of giving [false].  With the constructed map the end of the
    function is never reached. *)
Theorem loadAssetData_total_on_registered_types (m : AssetManager) (a : Asset) :
  serializers m = initial_serializers →
  let t := type (metadata a) in
  let served :=
    t = AssetType.Directory ∨ t = AssetType.Model ∨ t = AssetType.Texture in
  ((∃ r, loadAssetData m a = Ok r) ↔ served)
  ∧ (loadAssetData m a = Raise OutOfRange ↔ ¬ served)
  ∧ (t = AssetType.None → loadAssetData m a = Raise OutOfRange)
  ∧ loadAssetData m a ≠ Raise MissingReturn.
Proof.
  intros Hs. cbv zeta.
  assert (Hlookup : ∀ t,
            initial_serializers !! t
            = match t with
              | AssetType.Model =>
                  Some {| save := None; load := Some loadModelAsset |}
              | AssetType.Texture =>
                  Some {| save := None; load := Some loadTextureAsset |}
              | _ => None
              end) by (by intros []).
  assert (Hok : type (metadata a) = AssetType.Directory
                ∨ type (metadata a) = AssetType.Model
                ∨ type (metadata a) = AssetType.Texture →
                ∃ r, loadAssetData m a = Ok r).
  { intros [Ht|[Ht|Ht]].
    - rewrite loadAssetData_directory by done. by eexists.
    - erewrite loadAssetData_bound;
        [by eexists|by rewrite Ht|by rewrite Hs, Hlookup, Ht|done].
    - erewrite loadAssetData_bound;
        [by eexists|by rewrite Ht|by rewrite Hs, Hlookup, Ht|done]. }
  assert (Hthrow : ¬ (type (metadata a) = AssetType.Directory
                      ∨ type (metadata a) = AssetType.Model
                      ∨ type (metadata a) = AssetType.Texture) →
                   loadAssetData m a = Raise OutOfRange).
  { intros Hn. apply loadAssetData_out_of_range_iff. split; [tauto|].
    rewrite Hs, Hlookup. destruct (type (metadata a)); tauto. }
  assert (Hdec : type (metadata a) = AssetType.Directory
                 ∨ type (metadata a) = AssetType.Model
                 ∨ type (metadata a) = AssetType.Texture
                 ∨ type (metadata a) = AssetType.None)
    by (destruct (type (metadata a)); tauto).
  split; [|split; [|split]].
  - split; [|done]. intros [r Hr].
    destruct Hdec as [?|[?|[?|Ht]]]; [tauto..|].
    rewrite Hthrow in Hr; [done|]. rewrite Ht. by intros [?|[?|?]].
  - split; [|done]. intros Hr Hserved.
    destruct (Hok Hserved) as [r Hr']. by rewrite Hr in Hr'.
  - intros Ht. apply Hthrow. rewrite Ht. by intros [?|[?|?]].
  - intros Hr. destruct Hdec as [?|[?|[?|Ht]]].
    + destruct Hok as [r Hr']; [tauto|]. by rewrite Hr in Hr'.
    + destruct Hok as [r Hr']; [tauto|]. by rewrite Hr in Hr'.
    + destruct Hok as [r Hr']; [tauto|]. by rewrite Hr in Hr'.
    + rewrite Hthrow in Hr; [done|]. rewrite Ht. by intros [?|[?|?]].
Qed.

End Loading.

(** ** Import *)

Section Reimport.
Variable uuid_gen : nat → UUID.t.
Variable getAssetTypeFromPath : string → AssetType.t.

#[local] Abbreviation createEmptyAsset := (createEmptyAsset uuid_gen).
#[local] Abbreviation importAsset :=
  (importAsset uuid_gen getAssetTypeFromPath).


End Reimport.

(** ** Embedded assets *)

Section Embedded.
Variable uuid_gen : nat → UUID.t.
Variables XE_HOST_PATH_BEGIN XE_HOST_PATH_END : string.

#[local] Abbreviation createEmbeddedAsset :=
  (createEmbeddedAsset uuid_gen XE_HOST_PATH_BEGIN XE_HOST_PATH_END).

Lemma embedded_path_differs (parentPath internalPath : string) :
  XE_HOST_PATH_BEGIN ≠ "" →
  XE_HOST_PATH_BEGIN +:+ parentPath +:+ XE_HOST_PATH_END +:+ internalPath
  ≠ parentPath.
Proof.
  intros Hb E. apply (f_equal String.length) in E.
  rewrite !length_app in E.
  destruct XE_HOST_PATH_BEGIN; [done|]. simpl in E. lia.
Qed.

(** C7, as the code has it. For a parent path registered with handle
    [H], [createEmbeddedAsset] gives [dataAsset] the synthetic path, a
    handle that differs from [H] and the parent [H]; the registry is
    left as it was, no entry is added for the synthetic path. *)
Theorem createEmbeddedAsset_metadata
    (m : AssetManager) (ty : AssetType.t) (dataAsset : Asset)
    (parentPath internalPath : string) (mdH : AssetMetadata) :
  XE_HOST_PATH_BEGIN ≠ "" →
  registry_injective m →
  generator_fresh uuid_gen m →
  registry m !! parentPath = Some mdH →
  ∃ dataAsset' m',
    createEmbeddedAsset m ty dataAsset parentPath internalPath
    = Ok (dataAsset', m')
    ∧ path (metadata dataAsset')
      = XE_HOST_PATH_BEGIN +:+ parentPath +:+ XE_HOST_PATH_END
                           +:+ internalPath
    ∧ handle (metadata dataAsset') ≠ handle mdH
    ∧ parent (runtimeData dataAsset') = handle mdH
    ∧ registry m' = registry m.
Proof.
  intros Hb Hinj Hfresh Hreg. unfold createEmbeddedAsset. rewrite Hreg.
  set (ep := XE_HOST_PATH_BEGIN +:+ parentPath +:+ XE_HOST_PATH_END
                                +:+ internalPath).
  pose proof (createEmptyAsset_path uuid_gen m ep ty (handle mdH)) as Hp.
  pose proof (createEmptyAsset_runtimeData uuid_gen m ep ty (handle mdH))
    as Hr.
  destruct (registry m !! ep) as [md'|] eqn:Hep.
  - destruct (createEmptyAsset_found uuid_gen m ep ty (handle mdH) md' Hep)
      as [Hh Hm].
    destruct (createEmptyAsset uuid_gen m ep ty (handle mdH))
      as [metaAsset m'].
    simpl in *. subst m'. eexists _, _. split; [done|]. simpl.
    rewrite Hp, Hr, Hh. repeat split; try done.
    intros E. apply (embedded_path_differs parentPath internalPath Hb).
    by apply (Hinj _ _ _ _ Hep Hreg).
  - destruct (createEmptyAsset_new uuid_gen m ep ty (handle mdH) Hep)
      as [Hmd Hm].
    destruct (createEmptyAsset uuid_gen m ep ty (handle mdH))
      as [metaAsset m'].
    simpl in *. subst m'. eexists _, _. split; [done|]. simpl.
    rewrite Hr, Hmd. simpl. repeat split; try done.
    intros E. destruct (Hfresh (uuidsDrawn m)) as (_ & Hnr & _); [done|].
    apply Hnr. exists parentPath, mdH. by split.
Qed.

End Embedded.

(** ** Compaction and the sorted view *)

Section Compaction.

Lemma updateAssetRegistry_assets m :
  assets (updateAssetRegistry m) = assets m.
Proof. done. Qed.

Lemma updateAssetRegistry_registry m p md :
  registry (updateAssetRegistry m) !! p = Some md
  ↔ registry m !! p = Some md ∧ is_Some (assets m !! handle md).
Proof. unfold updateAssetRegistry. simpl. apply map_lookup_filter_Some. Qed.

Lemma updateAssetRegistry_registered m h :
  registered (updateAssetRegistry m) h
  ↔ registered m h ∧ is_Some (assets m !! h).
Proof.
  split.
  - intros (p & md & [Hp Hl]%updateAssetRegistry_registry & <-).
    split; [by exists p, md|done].
  - intros [(p & md & Hp & <-) Hl]. exists p, md. split; [|done].
    by apply updateAssetRegistry_registry.
Qed.

Lemma updateAssetRegistry_registered_iff_live m :
  live_registered m →
  ∀ h, registered (updateAssetRegistry m) h
       ↔ is_Some (assets (updateAssetRegistry m) !! h).
Proof.
  intros Hlr h. rewrite updateAssetRegistry_registered.
  rewrite updateAssetRegistry_assets. split; [by intros [_ ?]|].
  intros Hl. split; [by apply Hlr|done].
Qed.

(** C2, as the code has it. [updateAssetRegistry] keeps exactly the
    entries of the registry whose handle has a live asset and adds none:
    afterwards a handle is stored by an entry of the registry if and only
    if it was stored by one before and the live store has an asset under
    it.  When every live asset was known to the registry before, as a scan
    leaves it, this is: if and only if the live store has an asset under
    it. *)
Theorem updateAssetRegistry_compaction (m : AssetManager) :
  let m' := updateAssetRegistry m in
  assets m' = assets m
  ∧ (∀ p md, registry m' !! p = Some md
             ↔ registry m !! p = Some md ∧ is_Some (assets m !! handle md))
  ∧ (∀ h, registered m' h ↔ registered m h ∧ is_Some (assets m' !! h))
  ∧ (live_registered m →
     ∀ h, registered m' h ↔ is_Some (assets m' !! h)).
Proof.
  cbv zeta. split; [done|]. split; [apply updateAssetRegistry_registry|].
  split.
  - intros h. rewrite updateAssetRegistry_assets.
    apply updateAssetRegistry_registered.
  - apply updateAssetRegistry_registered_iff_live.
Qed.

End Compaction.

Section SortedView.

Lemma ascii_compare_Lt (a b : ascii) :
  Ascii.compare a b = Lt ↔ (N_of_ascii a < N_of_ascii b)%N.
Proof. unfold Ascii.compare. apply N.compare_lt_iff. Qed.

Lemma string_compare_refl (s : string) : String.compare s s = Eq.
Proof.
  induction s as [|c s IH]; simpl; [done|].
  unfold Ascii.compare. by rewrite N.compare_refl.
Qed.

Lemma string_compare_Lt_trans (s1 s2 s3 : string) :
  String.compare s1 s2 = Lt → String.compare s2 s3 = Lt →
  String.compare s1 s3 = Lt.
Proof.
  revert s2 s3. induction s1 as [|c1 s1 IH]; intros [|c2 s2] [|c3 s3];
    simpl; try done.
  destruct (Ascii.compare c1 c2) eqn:E12; try done.
  - apply Ascii.compare_eq_iff in E12 as ->.
    destruct (Ascii.compare c2 c3); try done. apply IH.
  - destruct (Ascii.compare c2 c3) eqn:E23; try done; intros _ _.
    + apply Ascii.compare_eq_iff in E23 as <-. by rewrite E12.
    + apply ascii_compare_Lt in E12. apply ascii_compare_Lt in E23.
      assert (H : Ascii.compare c1 c3 = Lt)
        by (apply ascii_compare_Lt; by etrans).
      by rewrite H.
Qed.

Lemma string_leb_trans (s1 s2 s3 : string) :
  String.leb s1 s2 = true → String.leb s2 s3 = true →
  String.leb s1 s3 = true.
Proof.
  unfold String.leb.
  destruct (String.compare s1 s2) eqn:E12; try done; intros _.
  - by apply String.compare_eq_iff in E12 as ->.
  - destruct (String.compare s2 s3) eqn:E23; try done; intros _.
    + apply String.compare_eq_iff in E23 as <-. by rewrite E12.
    + by rewrite (string_compare_Lt_trans _ _ _ E12 E23).
Qed.

Lemma string_ltb_false_leb (s1 s2 : string) :
  String.ltb s2 s1 = false ↔ String.leb s1 s2 = true.
Proof.
  unfold String.ltb, String.leb. rewrite (String.compare_antisym s2 s1).
  by destruct (String.compare s1 s2).
Qed.

Lemma ordinal_inj (a b : AssetType.t) :
  AssetType.ordinal a = AssetType.ordinal b → a = b.
Proof. by destruct a, b. Qed.

(** The fold of the code, [std::tolower] applied to every character, is
    the case fold of the description. *)
Lemma tolower_casefold (c : ascii) : tolower c = ascii_casefold c.
Proof. destruct c as [[] [] [] [] [] [] [] []]; reflexivity. Qed.

Lemma lowercase_casefold (s : string) : lowercase s = casefold s.
Proof.
  unfold casefold. induction s as [|c s IH]; [done|].
  simpl. by rewrite tolower_casefold, IH.
Qed.

(** The comparator of the code and the order of the description agree:
    [b] is not before [a] exactly when the key of [a] is at most that of
    [b]. *)
Lemma not_after_SortAssets (a b : UUID.t * Asset) :
  not_after SortAssets a b ↔ sort_key_le a b.
Proof.
  unfold not_after, SortAssets, sort_key_le, AssetType.ltb. cbv zeta.
  rewrite !lowercase_casefold.
  set (ta := type (metadata a.2)). set (tb := type (metadata b.2)).
  rewrite orb_false_iff, andb_false_iff, Nat.ltb_ge, bool_decide_eq_false,
    string_ltb_false_leb.
  split.
  - intros [Hle [Hne|Hs]].
    + left. assert (AssetType.ordinal ta ≠ AssetType.ordinal tb)
        by (intros E; apply Hne; symmetry; by apply ordinal_inj).
      lia.
    + destruct (decide (AssetType.ordinal ta = AssetType.ordinal tb));
        [by right|left; lia].
  - intros [Hlt|[E Hs]].
    + split; [lia|]. left. intros ->. lia.
    + split; [lia|by right].
Qed.

Global Instance sort_key_le_trans : Transitive sort_key_le.
Proof.
  intros a b c. unfold sort_key_le. cbv zeta.
  intros [H1|[E1 L1]] [H2|[E2 L2]]; [left; lia..|].
  right. split; [congruence|]. by eapply string_leb_trans.
Qed.

Global Instance sort_key_le_total : Total sort_key_le.
Proof.
  intros a b. unfold sort_key_le. cbv zeta.
  destruct (lt_eq_lt_dec (AssetType.ordinal (type (metadata a.2)))
                         (AssetType.ordinal (type (metadata b.2))))
    as [[H|H]|H]; [by left; left| |by right; left].
  destruct (String.leb_total (casefold (filename (runtimeData a.2)))
                             (casefold (filename (runtimeData b.2))));
    [left|right]; right; by split.
Qed.

Global Instance not_after_SortAssets_trans :
  Transitive (not_after SortAssets).
Proof.
  intros a b c. rewrite !not_after_SortAssets. apply sort_key_le_trans.
Qed.

Global Instance not_after_SortAssets_total : Total (not_after SortAssets).
Proof.
  intros a b. rewrite !not_after_SortAssets. apply sort_key_le_total.
Qed.

Lemma std_sort_SortAssets_sorted (l : list (UUID.t * Asset)) :
  StronglySorted sort_key_le (std_sort SortAssets l).
Proof.
  unfold std_sort.
  pose proof (StronglySorted_merge_sort (not_after SortAssets) l) as H.
  induction H as [|x l' Hl IH Hx]; constructor; [done|].
  eapply Forall_impl; [exact Hx|].
  intros y. apply not_after_SortAssets.
Qed.

Lemma std_sort_Permutation {A} (comp : A → A → bool) (l : list A) :
  std_sort comp l ≡ₚ l.
Proof. apply merge_sort_Permutation. Qed.

(** C8. Sorted view: after [updateAssetRegistry], [sortedAssets] is a
    rearrangement of the entries of the live store, one pair for each
    handle, in ascending order of the type's ordinal and, for equal
    types, of the filename with its capital ASCII letters folded to small
    ones ([casefold]). *)
Theorem updateAssetRegistry_sorted_view (m : AssetManager) :
  let m' := updateAssetRegistry m in
  sortedAssets m' ≡ₚ map_to_list (assets m')
  ∧ NoDup (sortedAssets m').*1
  ∧ (∀ h a, (h, a) ∈ sortedAssets m' ↔ assets m' !! h = Some a)
  ∧ StronglySorted sort_key_le (sortedAssets m').
Proof.
  cbv zeta. rewrite updateAssetRegistry_assets.
  assert (HP : sortedAssets (updateAssetRegistry m)
               ≡ₚ map_to_list (assets m))
    by apply std_sort_Permutation.
  split; [done|]. split; [|split].
  - rewrite HP. apply NoDup_fst_map_to_list.
  - intros h a. rewrite HP. apply elem_of_map_to_list.
  - apply std_sort_SortAssets_sorted.
Qed.

End SortedView.

(** ** The directory scan *)

Section Scan.
Variable uuid_gen : nat → UUID.t.
Variable getAssetTypeFromPath : string → AssetType.t.

#[local] Abbreviation createEmptyAsset := (createEmptyAsset uuid_gen).
#[local] Abbreviation importAsset :=
  (importAsset uuid_gen getAssetTypeFromPath).
#[local] Abbreviation enter_directory := (enter_directory uuid_gen).
#[local] Abbreviation updateDirectoryAssets :=
  (updateDirectoryAssets uuid_gen getAssetTypeFromPath).
#[local] Abbreviation scan_entries :=
  (scan_entries uuid_gen getAssetTypeFromPath).
#[local] Abbreviation well_formed := (well_formed uuid_gen).
#[local] Abbreviation install := (install uuid_gen).
#[local] Abbreviation scan_post := (scan_post uuid_gen).
#[local] Abbreviation loop_post := (loop_post uuid_gen).
#[local] Abbreviation entry_spec :=
  (entry_spec uuid_gen getAssetTypeFromPath).

(** *** Induction on the file system *)

Lemma FsEntry_nested_ind (P : FsEntry → Prop) :
  (∀ p, P (FsFile p)) →
  (∀ p es, Forall P es → P (FsDir p es)) →
  ∀ e, P e.
Proof.
  intros Hfile Hdir. fix IH 1. intros [p|p es]; [apply Hfile|].
  apply Hdir. induction es as [|e es IHes]; constructor; [apply IH|done].
Qed.

(** *** The equations of the scan *)

Lemma updateDirectoryAssets_dir m p es par :
  updateDirectoryAssets m (FsDir p es) par
  = do m2 <- link_to_parent (enter_directory m p par).1 par
                            (enter_directory m p par).2;
    do m3 <- scan_entries (enter_directory m p par).1 es m2;
    Ok ((enter_directory m p par).1, m3).
Proof. simpl. by destruct (enter_directory m p par). Qed.

Lemma updateDirectoryAssets_file m p par r :
  updateDirectoryAssets m (FsFile p) par ≠ Ok r.
Proof.
  simpl. destruct (enter_directory m p par) as [h m1].
  by destruct (link_to_parent h par m1).
Qed.

Lemma scan_entries_nil h m : scan_entries h [] m = Ok m.
Proof. done. Qed.

Lemma scan_entries_file h p es m :
  scan_entries h (FsFile p :: es) m = scan_entries h es (importAsset m p h).
Proof. done. Qed.

Lemma scan_entries_dir h p es0 es m :
  scan_entries h (FsDir p es0 :: es) m
  = do r <- updateDirectoryAssets m (FsDir p es0) h;
    scan_entries h es r.2.
Proof. done. Qed.

Lemma bind_Ok_inv {A B} (r : Result A) (k : A → Result B) b :
  bind r k = Ok b → ∃ a, r = Ok a ∧ k a = Ok b.
Proof. destruct r as [a|f]; simpl; [by exists a|done]. Qed.

(** *** Creating, registering and storing an object *)

Lemma importAsset_install m p par :
  importAsset m p par = install id m p (getAssetTypeFromPath p) par.
Proof.
  unfold importAsset, install.
  by destruct (createEmptyAsset m p (getAssetTypeFromPath p) par).
Qed.

Lemma enter_directory_install m p par :
  enter_directory m p par
  = (handle (metadata (createEmptyAsset m p AssetType.Directory par).1),
     install (set_loaded true) m p AssetType.Directory par).
Proof.
  unfold enter_directory, install.
  by destruct (createEmptyAsset m p AssetType.Directory par).
Qed.

Lemma enter_directory_fst m p par :
  (enter_directory m p par).1
  = handle (metadata (createEmptyAsset m p AssetType.Directory par).1).
Proof. by rewrite enter_directory_install. Qed.

Lemma enter_directory_snd m p par :
  (enter_directory m p par).2
  = install (set_loaded true) m p AssetType.Directory par.
Proof. by rewrite enter_directory_install. Qed.

Lemma install_assets upd m p ty par :
  (∀ a, metadata (upd a) = metadata a) →
  assets (install upd m p ty par)
  = <[handle (metadata (createEmptyAsset m p ty par).1) :=
        upd (createEmptyAsset m p ty par).1]> (assets m).
Proof.
  intros Hupd. unfold install, store_asset, register_if_needed.
  rewrite Hupd. simpl.
  assert (assets (createEmptyAsset m p ty par).2 = assets m) as <-.
  { unfold createEmptyAsset.
    destruct (registry m !! p); [by case_decide|done]. }
  by destruct (registry _ !! _).
Qed.

Lemma install_registry_found upd m p ty par md :
  (∀ a, metadata (upd a) = metadata a) →
  registry m !! p = Some md →
  registry (install upd m p ty par) = registry m
  ∧ uuidsDrawn (install upd m p ty par) = uuidsDrawn m
  ∧ handle (metadata (createEmptyAsset m p ty par).1) = handle md.
Proof.
  intros Hupd Hreg.
  destruct (createEmptyAsset_found uuid_gen m p ty par md Hreg) as [Hh Hm].
  unfold install, store_asset, register_if_needed.
  rewrite Hupd, Hm, createEmptyAsset_path, Hreg. by simpl.
Qed.

Lemma install_registry_new upd m p ty par :
  (∀ a, metadata (upd a) = metadata a) →
  registry m !! p = None →
  registry (install upd m p ty par)
  = <[p := {| handle := uuid_gen (uuidsDrawn m); path := p; type := ty |}]>
      (registry m)
  ∧ uuidsDrawn (install upd m p ty par) = S (uuidsDrawn m)
  ∧ handle (metadata (createEmptyAsset m p ty par).1)
    = uuid_gen (uuidsDrawn m).
Proof.
  intros Hupd Hreg.
  destruct (createEmptyAsset_new uuid_gen m p ty par Hreg) as [Hmd Hm].
  unfold install, store_asset, register_if_needed.
  rewrite Hupd, Hm, Hmd. simpl. by rewrite Hreg.
Qed.

Lemma install_registry_mono upd m p ty par :
  (∀ a, metadata (upd a) = metadata a) →
  registry m ⊆ registry (install upd m p ty par).
Proof.
  intros Hupd. destruct (registry m !! p) as [md|] eqn:Hreg.
  - by destruct (install_registry_found upd m p ty par md Hupd Hreg)
      as (-> & _).
  - destruct (install_registry_new upd m p ty par Hupd Hreg) as (-> & _).
    by apply insert_subseteq.
Qed.

Lemma install_registry_other upd m p ty par q :
  (∀ a, metadata (upd a) = metadata a) →
  q ≠ p →
  registry (install upd m p ty par) !! q = registry m !! q.
Proof.
  intros Hupd Hq. destruct (registry m !! p) as [md|] eqn:Hreg.
  - by destruct (install_registry_found upd m p ty par md Hupd Hreg)
      as (-> & _).
  - destruct (install_registry_new upd m p ty par Hupd Hreg) as (-> & _).
    by rewrite lookup_insert_ne.
Qed.

(** The handle of the created object is the one the registry has for
    the path afterwards. *)
Lemma install_handle_of upd m p ty par :
  (∀ a, metadata (upd a) = metadata a) →
  is_Some (registry (install upd m p ty par) !! p)
  ∧ handle_of (install upd m p ty par) p
    = handle (metadata (createEmptyAsset m p ty par).1).
Proof.
  intros Hupd. unfold handle_of.
  destruct (registry m !! p) as [md|] eqn:Hreg.
  - destruct (install_registry_found upd m p ty par md Hupd Hreg)
      as (-> & _ & ->).
    rewrite Hreg. by split.
  - destruct (install_registry_new upd m p ty par Hupd Hreg)
      as (-> & _ & ->).
    rewrite lookup_insert_eq. by split.
Qed.

Lemma handle_of_lookup m p md :
  registry m !! p = Some md → handle_of m p = handle md.
Proof. intros H. unfold handle_of. by rewrite H. Qed.

Lemma handle_of_mono (m m' : AssetManager) (p : string) :
  registry m ⊆ registry m' → is_Some (registry m !! p) →
  handle_of m' p = handle_of m p.
Proof.
  intros Hsub [md Hmd]. unfold handle_of.
  by rewrite Hmd, (lookup_weaken _ _ _ _ Hmd Hsub).
Qed.

Lemma link_to_parent_inv h par m m' :
  link_to_parent h par m = Ok m' →
  registry m' = registry m ∧ uuidsDrawn m' = uuidsDrawn m
  ∧ ((UUID.isValid par = false ∧ m' = m)
     ∨ (UUID.isValid par = true
        ∧ ∃ a l, assets m !! par = Some a ∧ children a = Some l
                 ∧ assets m' = <[par := with_children a (l ++ [h])]>
                                 (assets m))).
Proof.
  unfold link_to_parent. destruct (UUID.isValid par) eqn:Hv.
  - destruct (assets m !! par) as [a|] eqn:Ha; [|done].
    unfold push_child. destruct (children a) as [l|] eqn:Hl; [|done].
    simpl. intros [= <-]. do 2 (split; [done|]). right. split; [done|].
    by exists a, l.
  - intros [= <-]. do 2 (split; [done|]). by left.
Qed.

(** *** Induction on the completed runs of the scan *)

Section RunInduction.
Variable PE :
  AssetManager → FsEntry → UUID.t → UUID.t → AssetManager → Prop.
Variable PL :
  UUID.t → list FsEntry → AssetManager → AssetManager → Prop.

Hypothesis run_dir : ∀ m p es par m2 m3,
  link_to_parent (enter_directory m p par).1 par
                 (enter_directory m p par).2 = Ok m2 →
  scan_entries (enter_directory m p par).1 es m2 = Ok m3 →
  PL (enter_directory m p par).1 es m2 m3 →
  PE m (FsDir p es) par (enter_directory m p par).1 m3.
Hypothesis run_nil : ∀ h m, PL h [] m m.
Hypothesis run_file : ∀ h p es m m',
  scan_entries h es (importAsset m p h) = Ok m' →
  PL h es (importAsset m p h) m' →
  PL h (FsFile p :: es) m m'.
Hypothesis run_subdir : ∀ h p es0 es m h' m1 m',
  updateDirectoryAssets m (FsDir p es0) h = Ok (h', m1) →
  PE m (FsDir p es0) h h' m1 →
  scan_entries h es m1 = Ok m' →
  PL h es m1 m' →
  PL h (FsDir p es0 :: es) m m'.

Let entry_runs (e : FsEntry) : Prop :=
  ∀ m par h m', updateDirectoryAssets m e par = Ok (h, m') →
                PE m e par h m'.

Lemma entries_run_ind es :
  Forall entry_runs es →
  ∀ h m m', scan_entries h es m = Ok m' → PL h es m m'.
Proof.
  induction 1 as [|e es He _ IH]; intros h m m' Hrun.
  - rewrite scan_entries_nil in Hrun. injection Hrun as <-.
    apply run_nil.
  - destruct e as [p|p es0].
    + rewrite scan_entries_file in Hrun. apply run_file; [done|].
      by apply IH.
    + rewrite scan_entries_dir in Hrun.
      apply bind_Ok_inv in Hrun as ([h' m1] & Hsub & Hrest).
      simpl in Hrest. eapply run_subdir; [done| |done|].
      * by apply He.
      * by apply IH.
Qed.

Lemma entry_run_ind e : entry_runs e.
Proof.
  induction e as [p|p es IH] using FsEntry_nested_ind;
    intros m par h m' Hrun;
    [by apply updateDirectoryAssets_file in Hrun|].
  rewrite updateDirectoryAssets_dir in Hrun.
  apply bind_Ok_inv in Hrun as (m2 & Hlink & Hrun).
  apply bind_Ok_inv in Hrun as (m3 & Hloop & [= <- <-]).
  apply (run_dir _ _ _ _ m2); [done..|].
  by apply entries_run_ind.
Qed.

Lemma run_ind :
  (∀ e m par h m', updateDirectoryAssets m e par = Ok (h, m') →
                   PE m e par h m')
  ∧ (∀ es h m m', scan_entries h es m = Ok m' → PL h es m m').
Proof.
  split; [intros e; apply entry_run_ind|].
  intros es. apply entries_run_ind.
  apply Forall_forall. intros e _. apply entry_run_ind.
Qed.
End RunInduction.

(** *** The registry along a scan *)

Lemma id_metadata (a : Asset) : metadata (id a) = metadata a.
Proof. done. Qed.
Lemma set_loaded_metadata b (a : Asset) :
  metadata (set_loaded b a) = metadata a.
Proof. done. Qed.

Lemma scan_registry_mono :
  (∀ e m par h m', updateDirectoryAssets m e par = Ok (h, m') →
                   registry m ⊆ registry m')
  ∧ (∀ es h m m', scan_entries h es m = Ok m' →
                  registry m ⊆ registry m').
Proof.
  apply (run_ind (λ m _ _ _ m', registry m ⊆ registry m')
                 (λ _ _ m m', registry m ⊆ registry m')).
  - intros m p es par m2 m3 Hlink _ Hloop.
    apply link_to_parent_inv in Hlink as (Hr & _).
    etrans; [|exact Hloop]. rewrite Hr, enter_directory_snd.
    apply install_registry_mono, set_loaded_metadata.
  - done.
  - intros h p es m m' _ Hloop. etrans; [|exact Hloop].
    rewrite importAsset_install. apply install_registry_mono, id_metadata.
  - intros h p es0 es m h' m1 m' _ H1 _ H2. by etrans.
Qed.

(** A scan keeps every live asset known to the registry. *)
Lemma install_live_registered upd m p ty par :
  (∀ a, metadata (upd a) = metadata a) →
  live_registered m → live_registered (install upd m p ty par).
Proof.
  intros Hupd Hlr h. rewrite install_assets by done.
  destruct (install_handle_of upd m p ty par Hupd) as [[md Hmd] Hh].
  rewrite lookup_insert. case_decide as E.
  - intros _. exists p, md. split; [done|].
    by rewrite <- E, <- Hh, (handle_of_lookup _ _ _ Hmd).
  - intros Hl. destruct (Hlr h Hl) as (q & mdq & Hq & Hhq).
    exists q, mdq. split; [|done].
    eapply lookup_weaken; [done|]. by apply install_registry_mono.
Qed.

Lemma link_to_parent_live_registered h par m m' :
  link_to_parent h par m = Ok m' →
  live_registered m → live_registered m'.
Proof.
  intros (Hr & _ & [[_ ->]|(_ & a & l & Ha & _ & Hassets)])%link_to_parent_inv
         Hlr; [done|].
  intros h'. unfold registered. rewrite Hassets, Hr, lookup_insert.
  case_decide as E; intros Hl; apply Hlr; [|done].
  by rewrite <- E, Ha.
Qed.

Lemma scan_live_registered :
  (∀ e m par h m', updateDirectoryAssets m e par = Ok (h, m') →
                   live_registered m → live_registered m')
  ∧ (∀ es h m m', scan_entries h es m = Ok m' →
                  live_registered m → live_registered m').
Proof.
  apply (run_ind (λ m _ _ _ m', live_registered m → live_registered m')
                 (λ _ _ m m', live_registered m → live_registered m')).
  - intros m p es par m2 m3 Hlink _ Hloop Hlr. apply Hloop.
    apply (link_to_parent_live_registered _ _ _ _ Hlink).
    rewrite enter_directory_snd.
    by apply install_live_registered; [apply set_loaded_metadata|].
  - done.
  - intros h p es m m' _ Hloop Hlr. apply Hloop.
    rewrite importAsset_install.
    by apply install_live_registered; [apply id_metadata|].
  - intros h p es0 es m h' m1 m' _ H1 _ H2 Hlr. auto.
Qed.

(** After a scan the registry has every path of the tree, and the
    returned handle is the one it has for the root. *)
Lemma scan_registers :
  (∀ e m par h m', updateDirectoryAssets m e par = Ok (h, m') →
                   h = handle_of m' (fs_path e)
                   ∧ ∀ p, p ∈ fs_paths e → is_Some (registry m' !! p))
  ∧ (∀ es h m m', scan_entries h es m = Ok m' →
                  ∀ p, p ∈ concat (map fs_paths es) →
                       is_Some (registry m' !! p)).
Proof.
  destruct scan_registry_mono as [HmonoE HmonoL].
  apply (run_ind
           (λ m e _ h m',
              h = handle_of m' (fs_path e)
              ∧ ∀ p, p ∈ fs_paths e → is_Some (registry m' !! p))
           (λ _ es m m',
              ∀ p, p ∈ concat (map fs_paths es) →
                   is_Some (registry m' !! p))).
  - intros m p es par m2 m3 Hlink Hloop Hall.
    pose proof (HmonoL _ _ _ _ Hloop) as Hsub.
    apply link_to_parent_inv in Hlink as (Hr & _).
    rewrite enter_directory_snd in Hr. rewrite enter_directory_fst.
    destruct (install_handle_of (set_loaded true) m p AssetType.Directory
                par (set_loaded_metadata true)) as [Hs Hh].
    rewrite <- Hr in Hs.
    assert (Hp : is_Some (registry m3 !! p)).
    { destruct Hs as [md Hmd]. exists md. by eapply lookup_weaken. }
    split.
    + rewrite <- Hh. unfold handle_of at 1. rewrite <- Hr.
      symmetry. by apply (handle_of_mono m2 m3).
    + intros q [->|Hq]%elem_of_cons; [done|by apply Hall].
  - intros h m p Hp. simpl in Hp. by apply elem_of_nil in Hp.
  - intros h p es m m' Hloop Hall q Hq. simpl in Hq.
    apply elem_of_cons in Hq as [->|Hq]; [|by apply Hall].
    destruct (install_handle_of id m p (getAssetTypeFromPath p) h
                id_metadata) as [[md Hmd] _].
    rewrite <- importAsset_install in Hmd. exists md.
    eapply lookup_weaken; [exact Hmd|]. by eapply HmonoL.
  - intros h p es0 es m h' m1 m' _ [_ H1] Hloop Hall q Hq.
    simpl in Hq.
    apply elem_of_cons in Hq as [->|Hq].
    + destruct (H1 p) as [md Hmd]; [simpl; left|].
      exists md. eapply lookup_weaken; [exact Hmd|]. by eapply HmonoL.
    + apply elem_of_app in Hq as [Hq|Hq]; [|by apply Hall].
      destruct (H1 q) as [md Hmd]; [simpl; by right|].
      exists md. eapply lookup_weaken; [exact Hmd|]. by eapply HmonoL.
Qed.

(** *** Well-formed managers along a scan *)

Lemma well_formed_ext m m' :
  registry m' = registry m → uuidsDrawn m' = uuidsDrawn m →
  well_formed m → well_formed m'.
Proof.
  intros Hr Hd.
  unfold well_formed, registry_injective, registry_valid, generator_fresh, registered.
  by rewrite Hr, Hd.
Qed.

Lemma install_well_formed upd m p ty par :
  (∀ a, metadata (upd a) = metadata a) →
  well_formed m → well_formed (install upd m p ty par).
Proof.
  intros Hupd Hwf. destruct (registry m !! p) as [md|] eqn:Hreg.
  { destruct (install_registry_found upd m p ty par md Hupd Hreg)
      as (Hr & Hd & _).
    by apply (well_formed_ext m). }
  destruct (install_registry_new upd m p ty par Hupd Hreg)
    as (Hr & Hd & _).
  destruct Hwf as (Hinj & Hval & Hfresh).
  destruct (Hfresh (uuidsDrawn m)) as (Hv0 & Hn0 & Hi0); [done|].
  assert (Hnew : ∀ q md, registry m !! q = Some md →
                         handle md ≠ uuid_gen (uuidsDrawn m)).
  { intros q md Hq E. apply Hn0. by exists q, md. }
  split; [|split].
  - intros p1 p2 md1 md2. rewrite Hr. rewrite !lookup_insert.
    repeat case_decide; subst; try done.
    + intros [= <-] H2 E. simpl in E. symmetry in E. by apply Hnew in H2.
    + intros H1 [= <-] E. simpl in E. by apply Hnew in H1.
    + apply Hinj.
  - intros q md. rewrite Hr, lookup_insert. case_decide; subst.
    + by intros [= <-].
    + apply Hval.
  - intros n Hn. rewrite Hd in Hn.
    destruct (Hfresh n) as (Hv & Hnr & Hi); [lia|].
    split; [done|]. split.
    + intros (q & md & Hq & E). rewrite Hr, lookup_insert in Hq.
      case_decide; subst.
      * injection Hq as <-. simpl in E.
        assert (uuidsDrawn m = n) by (apply Hi0; [lia|done]). lia.
      * apply Hnr. by exists q, md.
    + intros n' Hn'. rewrite Hd in Hn'. apply Hi. lia.
Qed.

(** In a well-formed manager distinct registered paths have distinct
    handles. *)
Lemma handle_of_distinct m p1 p2 :
  well_formed m →
  is_Some (registry m !! p1) → is_Some (registry m !! p2) →
  p1 ≠ p2 → handle_of m p1 ≠ handle_of m p2.
Proof.
  intros (Hinj & _) [md1 H1] [md2 H2] Hne E.
  rewrite (handle_of_lookup _ _ _ H1), (handle_of_lookup _ _ _ H2) in E.
  apply Hne. by eapply Hinj.
Qed.

Lemma parent_live_valid m par paths :
  well_formed m → parent_live m par paths → UUID.isValid par = true.
Proof.
  intros (_ & Hval & _) (pp & mdp & a & l & Hpp & <- & _).
  unfold UUID.isValid. apply negb_true_iff, N.eqb_neq. by eapply Hval.
Qed.

Lemma parent_ready_live m par paths :
  parent_ready m par paths → UUID.isValid par = true →
  parent_live m par paths.
Proof. intros [->|H] Hv; [discriminate Hv|done]. Qed.

Lemma parent_live_distinct m m' par paths p :
  parent_live m par paths → registry m ⊆ registry m' → well_formed m' →
  p ∈ paths → is_Some (registry m' !! p) → handle_of m' p ≠ par.
Proof.
  intros (pp & mdp & a & l & Hpp & <- & Hnot & _) Hsub Hwf Hp Hs.
  pose proof (lookup_weaken _ _ _ _ Hpp Hsub) as Hpp'.
  rewrite <- (handle_of_lookup _ _ _ Hpp').
  apply handle_of_distinct; [done..|]. intros ->. done.
Qed.

Lemma with_children_same (a : Asset) (l : list UUID.t) :
  children a = Some l → with_children a (l ++ []) = a.
Proof. destruct a. simpl. intros ->. by rewrite app_nil_r. Qed.

(** *** The scan of a well-formed manager *)

Lemma file_spec p : entry_spec (FsFile p).
Proof.
  intros m par Hwf _ Hready. rewrite importAsset_install.
  set (ty := getAssetTypeFromPath p).
  pose proof (install_well_formed id m p ty par id_metadata Hwf) as Hwf'.
  pose proof (install_registry_mono id m p ty par id_metadata) as Hsub.
  destruct (install_handle_of id m p ty par id_metadata) as [Hs Hh].
  pose proof (install_assets id m p ty par id_metadata) as Ha.
  split; try done.
  - intros q Hq. simpl in Hq. by apply list_elem_of_singleton in Hq as ->.
  - eexists. cbn [fs_path]. rewrite Ha, Hh, lookup_insert_eq. unfold id.
    split; [done|]. split; [done|].
    by rewrite createEmptyAsset_path, createEmptyAsset_runtimeData.
  - intros q ->%list_elem_of_singleton. eexists.
    rewrite Ha, Hh, lookup_insert_eq. unfold id.
    split; [done|]. split; [done|]. by rewrite createEmptyAsset_path.
  - intros h Hne Hh'. rewrite Ha, lookup_insert_ne; [done|].
    rewrite <- Hh. apply Hh'. simpl. by left.
  - intros a l Hv Hlive Hl. rewrite with_children_same by done.
    rewrite Ha, lookup_insert_ne; [done|]. rewrite <- Hh.
    eapply parent_live_distinct; try done.
    + by apply parent_ready_live.
    + simpl. by left.
Qed.

Lemma fs_path_in (e : FsEntry) : fs_path e ∈ fs_paths e.
Proof. destruct e; simpl; by left. Qed.

Lemma with_children_twice (a : Asset) (l1 l2 : list UUID.t) :
  with_children (with_children a l1) l2 = with_children a l2.
Proof. done. Qed.

Lemma loop_spec es :
  Forall entry_spec es →
  ∀ m h,
    well_formed m → NoDup (concat (map fs_paths es)) →
    parent_live m h (concat (map fs_paths es)) →
    ∃ m', scan_entries h es m = Ok m' ∧ loop_post m h es m'.
Proof.
  induction 1 as [|q es Hq _ IH]; intros m h Hwf Hnd Hlive.
  { exists m. split; [done|]. split; try done.
    - intros p Hp. by apply elem_of_nil in Hp.
    - intros p Hp. by apply elem_of_nil in Hp.
    - intros q Hq. by apply elem_of_nil in Hq.
    - intros a l Ha Hl. simpl. by rewrite with_children_same. }
  simpl in Hnd, Hlive.
  apply NoDup_app in Hnd as (Hndq & Hdisj & Hndes).
  pose proof (parent_live_valid _ _ _ Hwf Hlive) as Hvalid.
  assert (Hliveq : parent_live m h (fs_paths q)).
  { destruct Hlive as (pp & mdp & a & l & Hpp & Hh & Hnot & Ha & Hl).
    exists pp, mdp, a, l. repeat split; try done.
    intros Hin. apply Hnot, elem_of_app. by left. }
  assert (∃ m1, scan_post m h q m1
                ∧ scan_entries h (q :: es) m = scan_entries h es m1)
    as (m1 & Hpost & Heq).
  { specialize (Hq m h Hwf Hndq (or_intror Hliveq)).
    destruct q as [p|p es0].
    - by exists (importAsset m p h).
    - destruct Hq as (h' & m1 & Hrun & _ & Hpost). exists m1.
      split; [done|]. by rewrite scan_entries_dir, Hrun. }
  destruct Hpost as [Hwf1 Hsub1 Hreg1 Hasset1 Hall1 _ Hframe1 Hparent1].
  assert (Hlive1 : parent_live m1 h (concat (map fs_paths es))).
  { destruct Hlive as (pp & mdp & a & l & Hpp & Hh & Hnot & Ha & Hl).
    exists pp, mdp. eexists _, _. split; [by eapply lookup_weaken|].
    split; [done|]. split.
    - intros Hin. apply Hnot, elem_of_app. by right.
    - split; [by apply (Hparent1 a l)|done]. }
  destruct (IH m1 h Hwf1 Hndes Hlive1) as (m' & Hrun & Hloop).
  destruct Hloop as [Hwf' Hsub' Hreg' Hall' Hent' Hframe' Hparent'].
  exists m'. split; [by rewrite Heq|].
  assert (Hsame : ∀ p, p ∈ fs_paths q → handle_of m' p = handle_of m1 p)
    by (intros p Hp; apply handle_of_mono; auto).
  assert (Hregq : ∀ p, p ∈ fs_paths q → is_Some (registry m' !! p)).
  { intros p Hp. destruct (Hreg1 p Hp) as [md Hmd]. exists md.
    by eapply lookup_weaken. }
  assert (Hkept : ∀ p, p ∈ fs_paths q →
                       assets m' !! handle_of m1 p
                       = assets m1 !! handle_of m1 p).
  { intros p Hp. apply Hframe'.
    - by apply (parent_live_distinct m m1 h (fs_paths q)); auto.
    - intros p' Hp'. rewrite <- (Hsame p) by done.
      apply handle_of_distinct; auto.
      intros ->. by apply (Hdisj p). }
  split.
  - done.
  - by etrans.
  - intros p [Hp|Hp]%elem_of_app; auto.
  - intros p [Hp|Hp]%elem_of_app; [|by apply Hall'].
    destruct (Hall1 p Hp) as (a & Ha & Hah & Hpath).
    exists a. rewrite Hsame by done. split; [|done].
    rewrite <- Ha. by apply Hkept.
  - intros q' [->|Hq']%elem_of_cons; [|by apply Hent'].
    destruct Hasset1 as (a & Ha & _ & Hpath & Hpar & _).
    exists a. split; [|done].
    rewrite Hsame by apply fs_path_in. rewrite <- Ha.
    apply Hkept, fs_path_in.
  - intros h' Hne Hother. rewrite Hframe'.
    + apply Hframe1; [done|]. intros p Hp. rewrite <- Hsame by done.
      apply Hother, elem_of_app. by left.
    + done.
    + intros p Hp. apply Hother, elem_of_app. by right.
  - intros a l Ha Hl.
    rewrite (Hparent' _ _ (Hparent1 a l Hvalid Ha Hl) eq_refl).
    rewrite with_children_twice. do 2 f_equal.
    rewrite <- app_assoc. f_equal. destruct q as [p|p es0]; [done|].
    simpl. by rewrite (Hsame p) by (simpl; by left).
Qed.

Lemma dir_spec p es : Forall entry_spec es → entry_spec (FsDir p es).
Proof.
  intros Hes m par Hwf Hnd Hready. simpl in Hnd.
  apply NoDup_cons in Hnd as [Hp Hnd].
  rewrite updateDirectoryAssets_dir.
  rewrite enter_directory_fst, enter_directory_snd.
  set (d0 := set_loaded true
               (createEmptyAsset m p AssetType.Directory par).1).
  set (h := handle (metadata
               (createEmptyAsset m p AssetType.Directory par).1)).
  set (m1 := install (set_loaded true) m p AssetType.Directory par).
  pose proof (install_well_formed _ m p AssetType.Directory par
                (set_loaded_metadata true) Hwf) as Hwf1.
  pose proof (install_registry_mono _ m p AssetType.Directory par
                (set_loaded_metadata true)) as Hsub1.
  destruct (install_handle_of _ m p AssetType.Directory par
              (set_loaded_metadata true)) as [Hs1 Hh1].
  pose proof (install_assets _ m p AssetType.Directory par
                (set_loaded_metadata true)) as Ha1.
  fold m1 in Hwf1, Hsub1, Hs1, Hh1, Ha1. fold h in Hh1, Ha1.
  fold d0 in Ha1.
  assert (Hd0 : children d0 = Some []).
  { unfold d0. simpl. by rewrite createEmptyAsset_children. }
  assert (Hd0h : handle (metadata d0) = h) by done.
  assert (Hd0p : path (metadata d0) = p)
    by (unfold d0; simpl; by rewrite createEmptyAsset_path).
  assert (Hd0par : parent (runtimeData d0) = par)
    by (unfold d0; simpl; by rewrite createEmptyAsset_runtimeData).
  clearbody d0 h m1.
  assert (Hlink : ∃ m2,
    link_to_parent h par m1 = Ok m2
    ∧ registry m2 = registry m1 ∧ uuidsDrawn m2 = uuidsDrawn m1
    ∧ assets m2 !! h = Some d0
    ∧ (∀ h', h' ≠ par → assets m2 !! h' = assets m1 !! h')
    ∧ (∀ a l, UUID.isValid par = true →
              assets m !! par = Some a → children a = Some l →
              assets m2 !! par = Some (with_children a (l ++ [h])))).
  { destruct Hready as [->|Hlive].
    - exists m1. split; [reflexivity|]. do 2 (split; [done|]).
      split; [by rewrite Ha1, lookup_insert_eq|]. split; [done|].
      intros a l Hv. discriminate Hv.
    - pose proof (parent_live_valid _ _ _ Hwf Hlive) as Hv.
      assert (Hne : h ≠ par).
      { rewrite <- Hh1. eapply parent_live_distinct; try done.
        simpl. by left. }
      destruct Hlive as (pp & mdp & a & l & Hpp & Hh & Hnot & Ha & Hl).
      assert (Ha' : assets m1 !! par = Some a)
        by (by rewrite Ha1, lookup_insert_ne).
      unfold link_to_parent, push_child. rewrite Hv, Ha', Hl. simpl.
      eexists. split; [done|]. simpl. repeat split.
      + by rewrite lookup_insert_ne, Ha1, lookup_insert_eq.
      + intros h' Hh'. by rewrite lookup_insert_ne.
      + intros a' l' _ Ha'' Hl'. rewrite lookup_insert_eq.
        rewrite Ha in Ha''. injection Ha'' as <-.
        rewrite Hl in Hl'. by injection Hl' as <-. }
  destruct Hlink as (m2 & Hlink & Hr2 & Hd2 & Hh2 & Hframe2 & Hparent2).
  assert (Hwf2 : well_formed m2) by (by apply (well_formed_ext m1)).
  assert (Hlive2 : parent_live m2 h (concat (map fs_paths es))).
  { destruct Hs1 as [md Hmd]. exists p, md, d0, [].
    rewrite Hr2. repeat split; try done.
    by rewrite <- Hh1, (handle_of_lookup _ _ _ Hmd). }
  destruct (loop_spec es Hes m2 h Hwf2 Hnd Hlive2) as (m3 & Hrun & Hloop).
  destruct Hloop as [Hwf3 Hsub3 Hreg3 Hall3 Hent3 Hframe3 Hparent3].
  rewrite Hlink. simpl. rewrite Hrun. simpl.
  assert (Hsub : registry m ⊆ registry m3).
  { etrans; [exact Hsub1|]. by rewrite <- Hr2. }
  assert (Hh3 : handle_of m3 p = h).
  { rewrite <- Hh1. rewrite (handle_of_mono m2 m3); [|done|by rewrite Hr2].
    unfold handle_of. by rewrite Hr2. }
  exists h, m3. split; [done|]. split; [done|]. split.
  - done.
  - done.
  - intros q [->|Hq]%elem_of_cons; [|by apply Hreg3].
    destruct Hs1 as [md Hmd]. exists md.
    eapply lookup_weaken; [exact Hmd|]. by rewrite <- Hr2.
  - eexists. cbn [fs_path]. rewrite Hh3.
    split; [by apply (Hparent3 d0 [])|]. by simpl.
  - intros q [->|Hq]%elem_of_cons; [|by apply Hall3].
    eexists. rewrite Hh3. split; [by apply (Hparent3 d0 [])|]. by simpl.
  - rewrite Hh3. apply Hent3.
  - intros h' Hne Hother.
    assert (h' ≠ h).
    { rewrite <- Hh3. intros ->. apply (Hother p); [simpl; by left|done]. }
    rewrite Hframe3, Hframe2, Ha1, lookup_insert_ne; try done.
    intros q Hq. apply Hother. simpl. by right.
  - intros a l Hv Ha Hl. rewrite Hh3.
    rewrite <- (Hparent2 a l Hv Ha Hl).
    pose proof (parent_ready_live _ _ _ Hready Hv) as Hlive.
    apply Hframe3.
    + rewrite <- Hh3. intros E. symmetry in E. revert E.
      eapply parent_live_distinct; try done; [simpl; by left|].
      destruct Hs1 as [md Hmd]. exists md.
      eapply lookup_weaken; [exact Hmd|]. by rewrite <- Hr2.
    + intros q Hq. eapply parent_live_distinct; try done;
        [simpl; by right|by apply Hreg3].
Qed.

Lemma entry_spec_all e : entry_spec e.
Proof.
  induction e as [p|p es IH] using FsEntry_nested_ind;
    [apply file_spec|by apply dir_spec].
Qed.

(** *** Children and parents after a scan *)

Lemma subdirectory_handles_elem m es h :
  h ∈ subdirectory_handles m es →
  ∃ p es0, FsDir p es0 ∈ es ∧ h = handle_of m p.
Proof.
  induction es as [|[p|p es0] es IH]; simpl.
  - by intros ?%elem_of_nil.
  - intros (p' & es' & Hin & ->)%IH. exists p', es'. split; [by right|done].
  - intros [->|(p' & es' & Hin & ->)%IH]%elem_of_cons.
    + exists p, es0. split; [by left|done].
    + exists p', es'. split; [by right|done].
Qed.

Lemma fs_path_in_entries e es :
  e ∈ es → fs_path e ∈ concat (map fs_paths es).
Proof.
  induction es as [|q es IH]; [by intros ?%elem_of_nil|].
  simpl. intros [->|Hin]%elem_of_cons; apply elem_of_app.
  - left. apply fs_path_in.
  - right. by apply IH.
Qed.

Lemma entries_path_inj es e1 e2 :
  NoDup (concat (map fs_paths es)) → e1 ∈ es → e2 ∈ es →
  fs_path e1 = fs_path e2 → e1 = e2.
Proof.
  induction es as [|q es IH]; [by intros _ ?%elem_of_nil|].
  simpl. intros (Hq & Hdisj & Hes)%NoDup_app.
  intros [->|H1]%elem_of_cons [->|H2]%elem_of_cons E; [done| | |by apply IH].
  - exfalso. apply (Hdisj (fs_path q)); [apply fs_path_in|].
    rewrite E. by apply fs_path_in_entries.
  - exfalso. apply (Hdisj (fs_path q)); [apply fs_path_in|].
    rewrite <- E. by apply fs_path_in_entries.
Qed.

(** C4, as the code has it. After [updateDirectoryAssets] on a
    directory, the children of the directory are the handles of its
    direct sub-directories, in the order of the enumeration; the handle
    of a file is not among them; and every direct entry, sub-directory
    or file, has a live asset whose parent is the handle of the
    directory. *)
Theorem updateDirectoryAssets_children_linking
    (m : AssetManager) (p : string) (es : list FsEntry) (par : UUID.t) :
  well_formed m →
  NoDup (fs_paths (FsDir p es)) →
  parent_ready m par (fs_paths (FsDir p es)) →
  ∃ h m' d,
    updateDirectoryAssets m (FsDir p es) par = Ok (h, m')
    ∧ assets m' !! h = Some d
    ∧ children d = Some (subdirectory_handles m' es)
    ∧ (∀ q, FsFile q ∈ es →
            handle_of m' q ∉ subdirectory_handles m' es)
    ∧ (∀ e, e ∈ es →
            ∃ a, assets m' !! handle_of m' (fs_path e) = Some a
                 ∧ path (metadata a) = fs_path e
                 ∧ parent (runtimeData a) = h).
Proof.
  intros Hwf Hnd Hready.
  destruct (entry_spec_all (FsDir p es) m par Hwf Hnd Hready)
    as (h & m' & Hrun & Hh & Hpost).
  destruct Hpost as [Hwf' _ Hreg' (d & Hd & _ & _ & _ & Hch) _ Hent' _ _].
  cbn [fs_path] in Hh, Hd, Hent', Hch. rewrite <- Hh in Hd, Hent'.
  exists h, m', d. repeat split; try done.
  intros q Hq (p' & es0 & Hin & E)%subdirectory_handles_elem.
  simpl in Hnd. apply NoDup_cons in Hnd as [_ Hnd].
  revert E. apply handle_of_distinct; [done|..].
  - apply Hreg'. simpl. right. by apply (fs_path_in_entries (FsFile q)).
  - apply Hreg'. simpl. right.
    by apply (fs_path_in_entries (FsDir p' es0)).
  - intros ->.
    by pose proof (entries_path_inj es (FsFile p') (FsDir p' es0)
                     Hnd Hq Hin eq_refl).
Qed.

(** *** Scanning twice *)

Lemma parent_ready_after m par e m' :
  well_formed m → parent_ready m par (fs_paths e) →
  scan_post m par e m' → parent_ready m' par (fs_paths e).
Proof.
  intros Hwf [->|Hlive] Hpost; [by left|right].
  pose proof (parent_live_valid _ _ _ Hwf Hlive) as Hv.
  destruct Hlive as (pp & mdp & a & l & Hpp & Hh & Hnot & Ha & Hl).
  exists pp, mdp. eexists _, _.
  split; [eapply lookup_weaken; [done|apply Hpost]|].
  split; [done|]. split; [done|].
  split; [by apply (post_parent _ _ _ _ _ Hpost a l)|done].
Qed.

(** C1. Identity stability. Whenever two scans of the same tree
    complete one after the other, they return the same handle and the
    registry has the same handle for every path of the tree after both;
    from a well-formed manager both scans of a directory do complete,
    and after each of them every path of the tree has a live asset under
    that one handle.  [createEmptyAsset] takes the handle from the
    registry for a registered path and draws a new one only for a path
    the registry does not have. *)
Theorem updateDirectoryAssets_identity_stable
    (m : AssetManager) (p : string) (es : list FsEntry) (par : UUID.t) :
  let e := FsDir p es in
  (∀ h1 m1 h2 m2,
     updateDirectoryAssets m e par = Ok (h1, m1) →
     updateDirectoryAssets m1 e par = Ok (h2, m2) →
     h1 = h2
     ∧ ∀ q, q ∈ fs_paths e →
            is_Some (registry m1 !! q)
            ∧ registry m2 !! q = registry m1 !! q)
  ∧ (well_formed m → NoDup (fs_paths e) →
     parent_ready m par (fs_paths e) →
     ∃ h m1 m2,
       updateDirectoryAssets m e par = Ok (h, m1)
       ∧ updateDirectoryAssets m1 e par = Ok (h, m2)
       ∧ ∀ q, q ∈ fs_paths e →
              ∃ a1 a2,
                handle_of m2 q = handle_of m1 q
                ∧ assets m1 !! handle_of m1 q = Some a1
                ∧ path (metadata a1) = q
                ∧ assets m2 !! handle_of m1 q = Some a2
                ∧ path (metadata a2) = q)
  ∧ (∀ q ty par' md,
       registry m !! q = Some md →
       handle (metadata (createEmptyAsset m q ty par').1) = handle md
       ∧ (createEmptyAsset m q ty par').2 = m)
  ∧ (∀ q ty par',
       registry m !! q = None →
       handle (metadata (createEmptyAsset m q ty par').1)
       = uuid_gen (uuidsDrawn m)
       ∧ uuidsDrawn (createEmptyAsset m q ty par').2 = S (uuidsDrawn m)).
Proof.
  cbv zeta. destruct scan_registry_mono as [Hmono _].
  destruct scan_registers as [Hregs _].
  split; [|split; [|split]].
  - intros h1 m1 h2 m2 Hrun1 Hrun2.
    destruct (Hregs _ _ _ _ _ Hrun1) as [-> Hreg1].
    destruct (Hregs _ _ _ _ _ Hrun2) as [-> _].
    pose proof (Hmono _ _ _ _ _ Hrun2) as Hsub.
    split.
    + symmetry. apply handle_of_mono; [done|]. apply Hreg1, fs_path_in.
    + intros q Hq. split; [by apply Hreg1|].
      destruct (Hreg1 q Hq) as [md Hmd]. rewrite Hmd.
      by eapply lookup_weaken.
  - intros Hwf Hnd Hready.
    destruct (entry_spec_all (FsDir p es) m par Hwf Hnd Hready)
      as (h & m1 & Hrun1 & Hh1 & Hpost1).
    pose proof (parent_ready_after _ _ _ _ Hwf Hready Hpost1) as Hready1.
    destruct (entry_spec_all (FsDir p es) m1 par
                (post_well_formed _ _ _ _ _ Hpost1) Hnd Hready1)
      as (h' & m2 & Hrun2 & Hh2 & Hpost2).
    assert (Hsame : ∀ q, q ∈ fs_paths (FsDir p es) →
                         handle_of m2 q = handle_of m1 q).
    { intros q Hq. apply handle_of_mono; [apply Hpost2|].
      by apply (post_registered _ _ _ _ _ Hpost1). }
    assert (h' = h) as ->.
    { rewrite Hh1, Hh2. apply Hsame, fs_path_in. }
    exists h, m1, m2. do 2 (split; [done|]). intros q Hq.
    destruct (post_all _ _ _ _ _ Hpost1 q Hq) as (a1 & Ha1 & _ & Hp1).
    destruct (post_all _ _ _ _ _ Hpost2 q Hq) as (a2 & Ha2 & _ & Hp2).
    rewrite (Hsame q Hq) in Ha2. exists a1, a2.
    split; [by apply Hsame|done].
  - intros q ty par' md Hq.
    apply (createEmptyAsset_found uuid_gen m q ty par' md Hq).
  - intros q ty par' Hq.
    destruct (createEmptyAsset_new uuid_gen m q ty par' Hq) as [-> ->].
    done.
Qed.

End Scan.

(** ** Construction *)

(** In the manager that [createAssetManager] returns, a handle is stored
    by an entry of the registry if and only if the live store has an asset
    under it. *)
Lemma createAssetManager_consistent
    (uuid_gen : nat → UUID.t) (getAssetTypeFromPath : string → AssetType.t)
    (fs : FsEntry) (drawn : nat) (m : AssetManager) :
  createAssetManager uuid_gen getAssetTypeFromPath fs drawn = Ok m →
  ∀ h, registered m h ↔ is_Some (assets m !! h).
Proof.
  unfold createAssetManager.
  intros ([h0 m1] & Hrun & [= <-])%bind_Ok_inv.
  apply updateAssetRegistry_registered_iff_live.
  destruct (scan_live_registered uuid_gen getAssetTypeFromPath) as [Hscan _].
  apply (Hscan _ _ _ _ _ Hrun).
  intros h [a Ha]. simpl in Ha. by rewrite lookup_empty in Ha.
Qed.

(** * The properties on the sample inputs *)

Section SampleFacts.

Lemma sample_gen_fresh (m : AssetManager) :
  (∀ p md, registry m !! p = Some md → (handle md < 100)%N) →
  generator_fresh Sample.gen m.
Proof.
  intros Hlow n _. unfold Sample.gen, UUID.None. split; [lia|]. split.
  - intros (p & md & Hp & E). apply Hlow in Hp. lia.
  - intros n' _ E. lia.
Qed.

Lemma new_manager_well_formed (n : nat) :
  well_formed Sample.gen (new_AssetManager n).
Proof.
  split; [|split].
  - intros p1 p2 md1 md2 H. simpl in H. by rewrite lookup_empty in H.
  - intros p md H. simpl in H. by rewrite lookup_empty in H.
  - apply sample_gen_fresh. intros p md H. simpl in H.
    by rewrite lookup_empty in H.
Qed.

Lemma manager_scene_injective : registry_injective Sample.manager_scene.
Proof.
  intros p1 p2 md1 md2 H1 H2 _. simpl in H1, H2.
  apply lookup_singleton_Some in H1 as [<- _].
  by apply lookup_singleton_Some in H2 as [<- _].
Qed.

Lemma manager_scene_fresh : generator_fresh Sample.gen Sample.manager_scene.
Proof.
  apply sample_gen_fresh.
  intros p md H. simpl in H.
  by apply lookup_singleton_Some in H as [_ <-].
Qed.

Lemma root_tree_NoDup : NoDup (fs_paths Sample.root_tree).
Proof. apply (bool_decide_unpack _). by vm_compute. Qed.

End SampleFacts.

(** C9 on ["/p/a.model"], ["/p/dir/"], ["name"] and ["/p.d/file"]. *)
Lemma createEmptyAsset_path_decomposition_witness :
  let m := new_AssetManager 0 in
  let fname p :=
    filename (runtimeData
      (createEmptyAsset Sample.gen m p AssetType.Model UUID.None).1) in
  let ext p :=
    extension (runtimeData
      (createEmptyAsset Sample.gen m p AssetType.Model UUID.None).1) in
  fname "name" = "" ∧ fname "/p/dir/" = "/p/dir"
  ∧ fname "/p/a.model" = "a.model" ∧ ext "/p.d/a.model" = "model"
  ∧ ext "/p/file" = "".
Proof.
  destruct (createEmptyAsset_path_decomposition Sample.gen
              (new_AssetManager 0) AssetType.Model UUID.None)
    as (H1 & H2 & H3 & H4 & H5).
  cbv zeta. split; [|split; [|split; [|split]]].
  - by apply (H1 "name").
  - apply (H2 "/p/dir").
  - by apply (H3 "/p" "a.model").
  - by apply (H4 "/p.d/a" "model").
  - by apply (H5 "/p/file").
Defined.

(** C3 on [/p/a.model], imported as a Model under handle 7 and created
    again as a Texture. *)
Lemma createEmptyAsset_type_mismatch_witness :
  registry Sample.manager_a_model !! "/p/a.model" = Some Sample.model_md
  ∧ type Sample.model_md ≠ AssetType.Texture
  ∧ type (metadata
      (createEmptyAsset Sample.gen Sample.manager_a_model "/p/a.model"
                        AssetType.Texture UUID.None).1) = AssetType.None
  ∧ handle (metadata
      (createEmptyAsset Sample.gen Sample.manager_a_model "/p/a.model"
                        AssetType.Texture UUID.None).1) = 7%N.
Proof.
  assert (H1 : registry Sample.manager_a_model !! "/p/a.model"
               = Some Sample.model_md) by reflexivity.
  assert (H2 : type Sample.model_md ≠ AssetType.Texture) by discriminate.
  split; [exact H1|]. split; [exact H2|].
  exact (createEmptyAsset_type_mismatch Sample.gen Sample.manager_a_model
           "/p/a.model" AssetType.Texture UUID.None Sample.model_md H1 H2).
Defined.

(** C10 on the manager as constructed and an asset of type [None]. *)
Lemma loadAssetData_total_on_registered_types_witness :
  serializers (Sample.manager_with initial_serializers) = initial_serializers
  ∧ loadAssetData Sample.loader (Sample.manager_with initial_serializers)
                  (Sample.plain_asset 1%N "/p/a.bin" AssetType.None)
    = Raise OutOfRange.
Proof.
  split; [reflexivity|].
  destruct (loadAssetData_total_on_registered_types Sample.loader
              (Sample.manager_with initial_serializers)
              (Sample.plain_asset 1%N "/p/a.bin" AssetType.None) eq_refl)
    as (_ & _ & Hnone & _).
  by apply Hnone.
Defined.


(** C7 on [/p/scene.fbx], registered under handle 7, and ["submesh0"]. *)
Lemma createEmbeddedAsset_metadata_witness :
  "<" ≠ ""
  ∧ registry_injective Sample.manager_scene
  ∧ generator_fresh Sample.gen Sample.manager_scene
  ∧ registry Sample.manager_scene !! "/p/scene.fbx" = Some Sample.scene_md
  ∧ ∃ dataAsset' m',
      createEmbeddedAsset Sample.gen "<" ">" Sample.manager_scene
        AssetType.Model (Sample.plain_asset 1%N "" AssetType.None)
        "/p/scene.fbx" "submesh0" = Ok (dataAsset', m')
      ∧ path (metadata dataAsset') = "</p/scene.fbx>submesh0"
      ∧ handle (metadata dataAsset') ≠ 7%N
      ∧ parent (runtimeData dataAsset') = 7%N
      ∧ registry m' = registry Sample.manager_scene.
Proof.
  assert (H0 : "<" ≠ "") by discriminate.
  assert (H3 : registry Sample.manager_scene !! "/p/scene.fbx"
               = Some Sample.scene_md) by reflexivity.
  split; [exact H0|]. split; [exact manager_scene_injective|].
  split; [exact manager_scene_fresh|]. split; [exact H3|].
  exact (createEmbeddedAsset_metadata Sample.gen "<" ">"
           Sample.manager_scene AssetType.Model
           (Sample.plain_asset 1%N "" AssetType.None)
           "/p/scene.fbx" "submesh0" Sample.scene_md
           H0 manager_scene_injective manager_scene_fresh H3).
Defined.

(** C7 as stated fails: after the call the registry has no entry for the
    synthetic path; it is the registry from before the call. *)
Lemma createEmbeddedAsset_registers_nothing :
  ∃ dataAsset' m',
    createEmbeddedAsset Sample.gen "<" ">" Sample.manager_scene
      AssetType.Model (Sample.plain_asset 1%N "" AssetType.None)
      "/p/scene.fbx" "submesh0" = Ok (dataAsset', m')
    ∧ path (metadata dataAsset') = "</p/scene.fbx>submesh0"
    ∧ registry m' !! "</p/scene.fbx>submesh0" = None
    ∧ ¬ (∃ md, registry m' = <["</p/scene.fbx>submesh0" := md]>
                               (registry Sample.manager_scene)).
Proof.
  eexists _, _. split; [by vm_compute|]. split; [reflexivity|].
  split; [reflexivity|].
  intros [md E].
  apply (f_equal (λ r, r !! "</p/scene.fbx>submesh0")) in E.
  by rewrite lookup_insert_eq in E.
Qed.

(** C2 as stated fails on a live asset that no entry of the registry
    knows: it stays live and stays unregistered. *)
Lemma updateAssetRegistry_unregistered_live :
  let m' := updateAssetRegistry Sample.manager_unregistered in
  is_Some (assets m' !! 5%N)
  ∧ ¬ registered m' 5%N
  ∧ ¬ (∀ h, registered m' h ↔ is_Some (assets m' !! h)).
Proof.
  cbv zeta.
  assert (Hlive : is_Some (assets (updateAssetRegistry
                                     Sample.manager_unregistered) !! 5%N))
    by (by eexists).
  assert (Hnot : ¬ registered (updateAssetRegistry
                                 Sample.manager_unregistered) 5%N).
  { intros (p & md & [Hp _]%updateAssetRegistry_registry & _).
    simpl in Hp. by rewrite lookup_empty in Hp. }
  split; [done|]. split; [done|]. intros H. by apply Hnot, H.
Qed.

(** C2 on the manager that has [/p/a.model] live and registered. *)
Lemma updateAssetRegistry_compaction_witness :
  live_registered Sample.manager_a_model
  ∧ ∀ h, registered (updateAssetRegistry Sample.manager_a_model) h
         ↔ is_Some (assets (updateAssetRegistry Sample.manager_a_model) !! h).
Proof.
  assert (H : live_registered Sample.manager_a_model).
  { intros h [a Ha]. simpl in Ha.
    apply lookup_singleton_Some in Ha as [<- _].
    by exists "/p/a.model", Sample.model_md. }
  split; [exact H|].
  destruct (updateAssetRegistry_compaction Sample.manager_a_model)
    as (_ & _ & _ & Hiff).
  exact (Hiff H).
Defined.

(** C8 on a live store whose filenames differ in case: [a.txt] is before
    [B.txt] and [b.PNG] before [C.png], as the fold of capital letters
    has it and the plain order of the characters has not; the directory
    is between them, after the assets without a type. *)
Lemma updateAssetRegistry_sorted_view_witness :
  (sortedAssets (updateAssetRegistry Sample.manager_mixed_case)).*1
  = [2%N; 1%N; 3%N; 5%N; 4%N]
  ∧ StronglySorted sort_key_le
      (sortedAssets (updateAssetRegistry Sample.manager_mixed_case)).
Proof.
  split; [by vm_compute|].
  apply (updateAssetRegistry_sorted_view Sample.manager_mixed_case).
Defined.

(** C4 on [/root] with [b.txt], [a.txt] and [sub/]. *)
Lemma updateDirectoryAssets_children_linking_witness :
  well_formed Sample.gen (new_AssetManager 0)
  ∧ NoDup (fs_paths Sample.root_tree)
  ∧ parent_ready (new_AssetManager 0) UUID.None (fs_paths Sample.root_tree)
  ∧ ∃ h m' d,
      updateDirectoryAssets Sample.gen Sample.classify (new_AssetManager 0)
                            Sample.root_tree UUID.None = Ok (h, m')
      ∧ assets m' !! h = Some d
      ∧ children d = Some (subdirectory_handles m' Sample.root_entries).
Proof.
  assert (H3 : parent_ready (new_AssetManager 0) UUID.None
                            (fs_paths Sample.root_tree)) by (by left).
  split; [exact (new_manager_well_formed 0)|].
  split; [exact root_tree_NoDup|]. split; [exact H3|].
  destruct (updateDirectoryAssets_children_linking Sample.gen Sample.classify
              (new_AssetManager 0) "/root" Sample.root_entries UUID.None
              (new_manager_well_formed 0) root_tree_NoDup H3)
    as (h & m' & d & Hrun & Hd & Hch & _).
  by exists h, m', d.
Defined.

(** C4 as stated fails: the children of [/root] are the handle of [sub/]
    alone, not the handles of the three entries. *)
Lemma updateDirectoryAssets_children_omit_files :
  ∃ m' d,
    updateDirectoryAssets Sample.gen Sample.classify (new_AssetManager 0)
                          Sample.root_tree UUID.None = Ok (100%N, m')
    ∧ assets m' !! 100%N = Some d
    ∧ children d = Some [103%N]
    ∧ entry_handles m' Sample.root_entries = [101%N; 102%N; 103%N]
    ∧ children d ≠ Some (entry_handles m' Sample.root_entries).
Proof.
  eexists _, _. split; [by vm_compute|]. split; [by vm_compute|].
  split; [reflexivity|]. split; [by vm_compute|]. by vm_compute.
Qed.

(** C1 on [/root], scanned twice from an empty manager. *)
Lemma updateDirectoryAssets_identity_stable_witness :
  well_formed Sample.gen (new_AssetManager 0)
  ∧ NoDup (fs_paths Sample.root_tree)
  ∧ parent_ready (new_AssetManager 0) UUID.None (fs_paths Sample.root_tree)
  ∧ ∃ h m1 m2,
      updateDirectoryAssets Sample.gen Sample.classify (new_AssetManager 0)
                            Sample.root_tree UUID.None = Ok (h, m1)
      ∧ updateDirectoryAssets Sample.gen Sample.classify m1
                              Sample.root_tree UUID.None = Ok (h, m2)
      ∧ ∀ q, q ∈ fs_paths Sample.root_tree →
             handle_of m2 q = handle_of m1 q.
Proof.
  assert (H3 : parent_ready (new_AssetManager 0) UUID.None
                            (fs_paths Sample.root_tree)) by (by left).
  split; [exact (new_manager_well_formed 0)|].
  split; [exact root_tree_NoDup|]. split; [exact H3|].
  destruct (updateDirectoryAssets_identity_stable Sample.gen Sample.classify
              (new_AssetManager 0) "/root" Sample.root_entries UUID.None)
    as (_ & Htotal & _).
  destruct (Htotal (new_manager_well_formed 0) root_tree_NoDup H3)
    as (h & m1 & m2 & Hrun1 & Hrun2 & Hall).
  exists h, m1, m2. split; [exact Hrun1|]. split; [exact Hrun2|].
  intros q Hq. by destruct (Hall q Hq) as (a1 & a2 & Hsame & _).
Defined.

(** ** The project of two folders, end to end *)

Example createAssetManager_proj :
  ∃ m, createAssetManager Sample.gen Sample.classify Sample.proj_tree 0 = Ok m
       ∧ size (registry m) = 5
       ∧ size (assets m) = 5
       ∧ children <$> assets m !! 100%N = Some (Some [101%N; 103%N])
       ∧ (sortedAssets m).*1 = [103%N; 100%N; 101%N; 104%N; 102%N].
Proof.
  eexists. split; [by vm_compute|]. by vm_compute.
Qed.

Example lowercase_example : lowercase "AbZ[@.Png" = "abz[@.png".
Proof. reflexivity. Qed.

(** * Further properties of the code *)

(** ** Creating an object *)

Section MoreCreation.
Variable uuid_gen : nat → UUID.t.
Variables XE_HOST_PATH_BEGIN XE_HOST_PATH_END : string.

#[local] Abbreviation createEmptyAsset := (createEmptyAsset uuid_gen).
#[local] Abbreviation createEmbeddedAsset :=
  (createEmbeddedAsset uuid_gen XE_HOST_PATH_BEGIN XE_HOST_PATH_END).

Lemma createEmptyAsset_frame
    (m : AssetManager) (p : string) (ty : AssetType.t) (par : UUID.t) :
  registry (createEmptyAsset m p ty par).2 = registry m
  ∧ assets (createEmptyAsset m p ty par).2 = assets m
  ∧ sortedAssets (createEmptyAsset m p ty par).2 = sortedAssets m
  ∧ serializers (createEmptyAsset m p ty par).2 = serializers m
  ∧ projectFolder (createEmptyAsset m p ty par).2 = projectFolder m
  ∧ uuidsDrawn (createEmptyAsset m p ty par).2
    = match registry m !! p with
      | Some _ => uuidsDrawn m
      | None => S (uuidsDrawn m)
      end.
Proof.
  unfold createEmptyAsset.
  destruct (registry m !! p); [by case_decide|done].
Qed.

(** X1. [createEmptyAsset] neither registers nor stores what it creates:
    registry, live store, sorted view, serializers and project folder are
    as before, and the generator has advanced by one exactly when the path
    was not in the registry. *)
Theorem createEmptyAsset_leaves_manager
    (m : AssetManager) (p : string) (ty : AssetType.t) (par : UUID.t) :
  let m' := (createEmptyAsset m p ty par).2 in
  registry m' = registry m
  ∧ assets m' = assets m
  ∧ sortedAssets m' = sortedAssets m
  ∧ serializers m' = serializers m
  ∧ projectFolder m' = projectFolder m
  ∧ uuidsDrawn m'
    = match registry m !! p with
      | Some _ => uuidsDrawn m
      | None => S (uuidsDrawn m)
      end.
Proof. apply createEmptyAsset_frame. Qed.

Lemma createEmptyAsset_type_cases
    (m : AssetManager) (p : string) (ty : AssetType.t) (par : UUID.t) :
  type (metadata (createEmptyAsset m p ty par).1) = ty
  ∨ type (metadata (createEmptyAsset m p ty par).1) = AssetType.None.
Proof.
  unfold createEmptyAsset. destruct (registry m !! p) as [md|]; [|by left].
  case_decide as E; [by right|left]. simpl.
  by destruct (decide (type md = ty)).
Qed.

Lemma createEmptyAsset_directory_object
    (m : AssetManager) (p : string) (ty : AssetType.t) (par : UUID.t) :
  type (metadata (createEmptyAsset m p ty par).1) = AssetType.Directory →
  children (createEmptyAsset m p ty par).1 = Some [].
Proof.
  intros Ht. rewrite createEmptyAsset_children.
  destruct (createEmptyAsset_type_cases m p ty par) as [E|E];
    rewrite E in Ht; [by rewrite decide_True|done].
Qed.


(** X3. [createEmbeddedAsset] throws [out_of_range] exactly when the
    parent path is not in the registry, and returns otherwise. *)
Theorem createEmbeddedAsset_parent_lookup
    (m : AssetManager) (ty : AssetType.t) (dataAsset : Asset)
    (parentPath internalPath : string) :
  (createEmbeddedAsset m ty dataAsset parentPath internalPath
   = Raise OutOfRange
   ↔ registry m !! parentPath = None)
  ∧ ((∃ r, createEmbeddedAsset m ty dataAsset parentPath internalPath = Ok r)
     ↔ is_Some (registry m !! parentPath)).
Proof.
  unfold createEmbeddedAsset.
  destruct (registry m !! parentPath) as [md|].
  - destruct (createEmptyAsset m _ ty (handle md)) as [metaAsset m'].
    split; [split; intros H; discriminate H|].
    split; intros _; by eexists.
  - split; [by split|].
    split; [intros [r Hr]; discriminate Hr|intros [x Hx]; discriminate Hx].
Qed.

(** X4. [createEmbeddedAsset] registers nothing, so a synthetic path that
    the registry does not have stays unknown: every call for it draws
    another handle from the generator, and the registry is the same after
    two calls as before the first. *)
Theorem createEmbeddedAsset_draws_each_time
    (m : AssetManager) (ty : AssetType.t) (d1 d2 : Asset)
    (parentPath internalPath : string) (mdH : AssetMetadata) :
  registry m !! parentPath = Some mdH →
  registry m !! (XE_HOST_PATH_BEGIN +:+ parentPath +:+ XE_HOST_PATH_END
                                    +:+ internalPath) = None →
  ∃ d1' m1 d2' m2,
    createEmbeddedAsset m ty d1 parentPath internalPath = Ok (d1', m1)
    ∧ createEmbeddedAsset m1 ty d2 parentPath internalPath = Ok (d2', m2)
    ∧ uuidsDrawn m1 = S (uuidsDrawn m)
    ∧ uuidsDrawn m2 = S (S (uuidsDrawn m))
    ∧ registry m1 = registry m
    ∧ registry m2 = registry m
    ∧ assets m2 = assets m.
Proof.
  intros Hreg Hep.
  set (ep := XE_HOST_PATH_BEGIN +:+ parentPath +:+ XE_HOST_PATH_END
                                +:+ internalPath) in *.
  set (m1 := set_uuidsDrawn (S (uuidsDrawn m)) m).
  set (m2 := set_uuidsDrawn (S (uuidsDrawn m1)) m1).
  assert (Hep1 : registry m1 !! ep = None) by done.
  assert (Hreg1 : registry m1 !! parentPath = Some mdH) by done.
  destruct (createEmptyAsset_new uuid_gen m ep ty (handle mdH) Hep)
    as [_ Hm].
  destruct (createEmptyAsset_new uuid_gen m1 ep ty (handle mdH) Hep1)
    as [_ Hm2].
  exists (copyAssetMetadata (createEmptyAsset m ep ty (handle mdH)).1 d1), m1,
         (copyAssetMetadata (createEmptyAsset m1 ep ty (handle mdH)).1 d2), m2.
  split; [|split].
  - unfold createEmbeddedAsset. rewrite Hreg. fold ep.
    destruct (createEmptyAsset m ep ty (handle mdH)). simpl in Hm. by subst.
  - unfold createEmbeddedAsset. rewrite Hreg1. fold ep.
    destruct (createEmptyAsset m1 ep ty (handle mdH)). simpl in Hm2.
    by subst.
  - done.
Qed.

End MoreCreation.

(** ** Importing *)

Section MoreImport.
Variable uuid_gen : nat → UUID.t.
Variable getAssetTypeFromPath : string → AssetType.t.

#[local] Abbreviation createEmptyAsset := (createEmptyAsset uuid_gen).
#[local] Abbreviation importAsset :=
  (importAsset uuid_gen getAssetTypeFromPath).
#[local] Abbreviation install := (install uuid_gen).

Lemma install_frame upd m p ty par :
  serializers (install upd m p ty par) = serializers m
  ∧ projectFolder (install upd m p ty par) = projectFolder m.
Proof.
  destruct (createEmptyAsset_frame uuid_gen m p ty par)
    as (_ & _ & _ & Hser & Hpf & _).
  unfold install, store_asset, register_if_needed.
  by destruct (registry _ !! _); simpl; rewrite Hser, Hpf.
Qed.

(** X5. After [importAsset] the registry has the path, with the entry it
    had before if it had one, and the live store has, under the handle of
    that entry, an asset with that handle and path and the given parent,
    not loaded, whose type is the one of the entry or [None]. *)
Theorem importAsset_registers_and_stores
    (m : AssetManager) (p : string) (par : UUID.t) :
  ∃ md a,
    registry (importAsset m p par) !! p = Some md
    ∧ (∀ md0, registry m !! p = Some md0 → md = md0)
    ∧ assets (importAsset m p par) !! handle md = Some a
    ∧ handle (metadata a) = handle md
    ∧ path (metadata a) = p
    ∧ (type (metadata a) = type md ∨ type (metadata a) = AssetType.None)
    ∧ parent (runtimeData a) = par
    ∧ loaded (runtimeData a) = false.
Proof.
  rewrite importAsset_install. set (ty := getAssetTypeFromPath p).
  pose proof (install_assets uuid_gen id m p ty par id_metadata) as Ha.
  pose proof (createEmptyAsset_path uuid_gen m p ty par) as Hp.
  pose proof (createEmptyAsset_runtimeData uuid_gen m p ty par) as Hr.
  destruct (registry m !! p) as [md0|] eqn:Hreg.
  - destruct (install_registry_found uuid_gen id m p ty par md0
                id_metadata Hreg) as (Hr' & _ & Hh).
    exists md0, (createEmptyAsset m p ty par).1.
    rewrite Hr', Ha, Hh, lookup_insert_eq, Hr. unfold id.
    repeat split; try done; [by intros ? [= <-]|].
    unfold createEmptyAsset. rewrite Hreg. case_decide; [by right|by left].
  - destruct (install_registry_new uuid_gen id m p ty par id_metadata Hreg)
      as (Hr' & _ & Hh).
    destruct (createEmptyAsset_new uuid_gen m p ty par Hreg) as [Hmd _].
    eexists _, (createEmptyAsset m p ty par).1.
    rewrite Hr', lookup_insert_eq. split; [done|]. cbn [handle type].
    rewrite Ha, Hh, lookup_insert_eq, Hr. unfold id. rewrite Hmd.
    cbn [handle path type parent loaded].
    split; [intros md0 H; discriminate H|]. repeat split; try done. by left.
Qed.

(** X6. [importAsset] touches nothing but its own path and handle: the
    other entries of the registry and the assets under other handles are
    as before, no entry of the registry is changed or removed, and the
    serializers and the project folder stay. *)
Theorem importAsset_touches_its_own_only
    (m : AssetManager) (p : string) (par : UUID.t) :
  let m' := importAsset m p par in
  registry m ⊆ registry m'
  ∧ (∀ q, q ≠ p → registry m' !! q = registry m !! q)
  ∧ (∀ h, h ≠ handle_of m' p → assets m' !! h = assets m !! h)
  ∧ serializers m' = serializers m
  ∧ projectFolder m' = projectFolder m.
Proof.
  cbv zeta. rewrite importAsset_install.
  set (ty := getAssetTypeFromPath p).
  destruct (install_frame id m p ty par) as (Hser & Hpf).
  destruct (install_handle_of uuid_gen id m p ty par id_metadata) as [_ Hh].
  split; [by apply install_registry_mono|].
  split; [intros q Hq; by apply install_registry_other|].
  split; [|done].
  intros h Hne. rewrite install_assets by done.
  apply lookup_insert_ne. by rewrite <- Hh.
Qed.

Lemma set_assets_same (m : AssetManager) : set_assets (assets m) m = m.
Proof. by destruct m. Qed.

Lemma createEmptyAsset_after_install upd m p ty par :
  (∀ a, metadata (upd a) = metadata a) →
  createEmptyAsset (install upd m p ty par) p ty par
  = ((createEmptyAsset m p ty par).1, install upd m p ty par).
Proof.
  intros Hupd. destruct (registry m !! p) as [md0|] eqn:Hreg.
  - destruct (install_registry_found uuid_gen upd m p ty par md0 Hupd Hreg)
      as (Hr' & _).
    unfold createEmptyAsset. rewrite Hr', Hreg. by case_decide.
  - destruct (install_registry_new uuid_gen upd m p ty par Hupd Hreg)
      as (Hr' & _).
    unfold createEmptyAsset. rewrite Hr', lookup_insert_eq, Hreg.
    cbn [type handle]. by rewrite decide_False by (by intros ?).
Qed.

Lemma install_idempotent upd m p ty par :
  (∀ a, metadata (upd a) = metadata a) →
  install upd (install upd m p ty par) p ty par = install upd m p ty par.
Proof.
  intros Hupd. unfold install at 1.
  rewrite createEmptyAsset_after_install by done. cbn [fst snd].
  destruct (install_handle_of uuid_gen upd m p ty par Hupd) as [[md Hmd] _].
  unfold register_if_needed, store_asset.
  rewrite Hupd, createEmptyAsset_path, Hmd.
  rewrite (install_assets uuid_gen upd m p ty par Hupd) at 1.
  rewrite insert_insert_eq.
  rewrite <- (install_assets uuid_gen upd m p ty par Hupd).
  apply set_assets_same.
Qed.

(** X7. Importing a path again, under the same parent, changes nothing:
    the second [importAsset] finds the entry of the first, creates the
    same object and stores it under the same handle. *)
Theorem importAsset_idempotent
    (m : AssetManager) (p : string) (par : UUID.t) :
  importAsset (importAsset m p par) p par = importAsset m p par.
Proof.
  rewrite !importAsset_install. apply install_idempotent, id_metadata.
Qed.

End MoreImport.


(** ** The comparator and the compaction *)

Section MoreSorting.

Lemma SortAssets_false (a b : UUID.t * Asset) :
  SortAssets a b = false ↔ sort_key_le b a.
Proof. apply (not_after_SortAssets b a). Qed.

Lemma SortAssets_true (a b : UUID.t * Asset) :
  SortAssets a b = true ↔ ¬ sort_key_le b a.
Proof.
  rewrite <- SortAssets_false. by destruct (SortAssets a b).
Qed.

(** X9. [SortAssets] is a strict weak ordering, as [std::sort] requires
    of its comparator: no element is before itself, two elements are never
    before each other, being before is transitive, and so is being
    neither before nor after. *)
Theorem SortAssets_strict_weak_ordering :
  (∀ a, SortAssets a a = false)
  ∧ (∀ a b, SortAssets a b = true → SortAssets b a = false)
  ∧ (∀ a b c, SortAssets a b = true → SortAssets b c = true →
              SortAssets a c = true)
  ∧ (∀ a b c,
       SortAssets a b = false ∧ SortAssets b a = false →
       SortAssets b c = false ∧ SortAssets c b = false →
       SortAssets a c = false ∧ SortAssets c a = false).
Proof.
  split; [|split; [|split]].
  - intros a. apply SortAssets_false.
    by destruct (sort_key_le_total a a).
  - intros a b Hab. apply SortAssets_false.
    apply SortAssets_true in Hab.
    by destruct (sort_key_le_total a b).
  - intros a b c Hab Hbc. apply SortAssets_true. intros Hca.
    apply SortAssets_true in Hab. apply SortAssets_true in Hbc.
    destruct (sort_key_le_total a b) as [Hle|Hle]; [|done].
    apply Hbc. by etrans.
  - intros a b c [Hab Hba] [Hbc Hcb].
    apply SortAssets_false in Hab, Hba, Hbc, Hcb.
    split; apply SortAssets_false; by etrans.
Qed.

Lemma string_ltb_irrefl (s : string) : String.ltb s s = false.
Proof. unfold String.ltb. by rewrite string_compare_refl. Qed.

(** X10. The comparator looks at the type first and at the filename
    without its case, and at nothing else: one asset is before another
    exactly when the ordinal of its type is smaller, or the types are the
    same and its filename with the capital ASCII letters folded to small
    ones is smaller, character by character; and two assets of one type
    are neither before nor after each other exactly when their folded
    filenames are equal, whatever their handles are. *)
Theorem SortAssets_type_then_caseless_name (a b : UUID.t * Asset) :
  (SortAssets a b = true ↔ sort_key_lt a b)
  ∧ (type (metadata a.2) = type (metadata b.2) →
     (SortAssets a b = false ∧ SortAssets b a = false
      ↔ casefold (filename (runtimeData a.2))
        = casefold (filename (runtimeData b.2)))).
Proof.
  split.
  - unfold SortAssets, sort_key_lt, AssetType.ltb. cbv zeta.
    rewrite !lowercase_casefold.
    rewrite orb_true_iff, andb_true_iff, Nat.ltb_lt, bool_decide_eq_true.
    split; (intros [Hlt|[E Hs]]; [by left|right]); split; try done.
    + by rewrite E.
    + by apply ordinal_inj.
  - intros Ht. rewrite !SortAssets_false. unfold sort_key_le. cbv zeta.
    rewrite Ht. split.
    + intros [[Hlt|[_ H1]] [Hlt'|[_ H2]]]; try lia.
      by apply String.leb_antisym.
    + intros ->.
      assert (Hrefl : ∀ s, String.leb s s = true)
        by (intros s; unfold String.leb; by rewrite string_compare_refl).
      split; right; by rewrite Hrefl.
Qed.

Lemma updateAssetRegistry_again (m : AssetManager) :
  updateAssetRegistry (updateAssetRegistry m) = updateAssetRegistry m.
Proof.
  unfold updateAssetRegistry at 1 3.
  rewrite updateAssetRegistry_assets.
  unfold set_registry, set_sortedAssets. simpl. f_equal.
  apply map_eq. intros p. apply option_eq. intros md.
  rewrite !map_lookup_filter_Some. simpl. tauto.
Qed.

(** X11. [updateAssetRegistry] only shrinks the registry, leaves the live
    store, the serializers and the project folder alone, builds the sorted
    view from the live store alone, with as many pairs as the store has
    assets, and a second call right after the first changes nothing. *)
Theorem updateAssetRegistry_shrinks_and_settles (m : AssetManager) :
  let m' := updateAssetRegistry m in
  registry m' ⊆ registry m
  ∧ assets m' = assets m
  ∧ serializers m' = serializers m
  ∧ projectFolder m' = projectFolder m
  ∧ uuidsDrawn m' = uuidsDrawn m
  ∧ length (sortedAssets m') = size (assets m)
  ∧ (∀ l, sortedAssets (updateAssetRegistry (set_sortedAssets l m))
          = sortedAssets m')
  ∧ updateAssetRegistry m' = m'.
Proof.
  cbv zeta. split; [apply map_filter_subseteq|].
  do 4 (split; [done|]). split; [|split; [done|]].
  - unfold updateAssetRegistry. simpl.
    rewrite (std_sort_Permutation SortAssets (map_to_list (assets m))).
    by rewrite length_map_to_list.
  - apply updateAssetRegistry_again.
Qed.

End MoreSorting.

(** ** Consistency and the scan *)

Section MoreScan.
Variable uuid_gen : nat → UUID.t.
Variable getAssetTypeFromPath : string → AssetType.t.

#[local] Abbreviation createEmptyAsset := (createEmptyAsset uuid_gen).
#[local] Abbreviation importAsset :=
  (importAsset uuid_gen getAssetTypeFromPath).
#[local] Abbreviation enter_directory := (enter_directory uuid_gen).
#[local] Abbreviation updateDirectoryAssets :=
  (updateDirectoryAssets uuid_gen getAssetTypeFromPath).
#[local] Abbreviation scan_entries :=
  (scan_entries uuid_gen getAssetTypeFromPath).
#[local] Abbreviation well_formed := (well_formed uuid_gen).
#[local] Abbreviation install := (install uuid_gen).

(** A property of the manager that the steps of a scan keep is kept by
    the scan. *)
Lemma scan_invariant (I : AssetManager → Prop) :
  (∀ upd m p ty par,
     (∀ a, metadata (upd a) = metadata a) →
     (∀ a, children (upd a) = children a) →
     I m → I (install upd m p ty par)) →
  (∀ h par m m', link_to_parent h par m = Ok m' → I m → I m') →
  (∀ e m par h m', updateDirectoryAssets m e par = Ok (h, m') → I m → I m')
  ∧ (∀ es h m m', scan_entries h es m = Ok m' → I m → I m').
Proof.
  intros Hinstall Hlink.
  apply (run_ind uuid_gen getAssetTypeFromPath
           (λ m _ _ _ m', I m → I m') (λ _ _ m m', I m → I m')).
  - intros m p es par m2 m3 Hl _ Hloop Hm. apply Hloop.
    apply (Hlink _ _ _ _ Hl). rewrite enter_directory_snd.
    by apply Hinstall.
  - done.
  - intros h p es m m' _ Hloop Hm. apply Hloop.
    rewrite importAsset_install. by apply Hinstall.
  - intros h p es0 es m h' m1 m' _ H1 _ H2 Hm. auto.
Qed.

Lemma install_consistent upd m p ty par :
  (∀ a, metadata (upd a) = metadata a) →
  (∀ a, children (upd a) = children a) →
  consistent m → consistent (install upd m p ty par).
Proof.
  intros Hupd Hch (Hkey & Hlive & Hdir).
  pose proof (install_registry_mono uuid_gen upd m p ty par Hupd) as Hsub.
  destruct (install_handle_of uuid_gen upd m p ty par Hupd) as [[md Hmd] Hh].
  rewrite (handle_of_lookup _ _ _ Hmd) in Hh.
  pose proof (install_assets uuid_gen upd m p ty par Hupd) as Ha.
  split; [|split].
  - intros q mdq Hq. destruct (registry m !! p) as [md0|] eqn:Hreg.
    + destruct (install_registry_found uuid_gen upd m p ty par md0 Hupd Hreg)
        as (Hr & _).
      rewrite Hr in Hq. by apply Hkey.
    + destruct (install_registry_new uuid_gen upd m p ty par Hupd Hreg)
        as (Hr & _).
      rewrite Hr, lookup_insert in Hq. case_decide; subst.
      * by injection Hq as <-.
      * by apply Hkey.
  - intros h a. rewrite Ha, lookup_insert. case_decide as E.
    + intros [= <-]. rewrite Hupd. split; [done|].
      rewrite createEmptyAsset_path. exists md. by rewrite Hh, E.
    + intros Hl. destruct (Hlive h a Hl) as (Hk & mdh & Hr & Hhh).
      split; [done|]. exists mdh. split; [|done].
      by eapply lookup_weaken.
  - intros h a. rewrite Ha, lookup_insert. case_decide as E.
    + intros [= <-]. rewrite Hupd, Hch. intros Ht.
      rewrite (createEmptyAsset_directory_object uuid_gen m p ty par Ht).
      by eexists.
    + apply Hdir.
Qed.

Lemma link_to_parent_consistent h par m m' :
  link_to_parent h par m = Ok m' → consistent m → consistent m'.
Proof.
  intros (Hr & _ & [[_ ->]|(_ & a & l & Ha & Hl & Hassets)])%link_to_parent_inv
         (Hkey & Hlive & Hdir); [done|].
  split; [|split].
  - intros q md. rewrite Hr. apply Hkey.
  - intros h' a'. rewrite Hassets, Hr, lookup_insert. case_decide as E.
    + intros [= <-]. subst h'. apply (Hlive par a Ha).
    + apply Hlive.
  - intros h' a'. rewrite Hassets, lookup_insert. case_decide as E.
    + intros [= <-] _. by eexists.
    + apply Hdir.
Qed.

Lemma updateAssetRegistry_consistent m :
  consistent m → consistent (updateAssetRegistry m).
Proof.
  intros (Hkey & Hlive & Hdir). split; [|split].
  - intros p md [Hp _]%updateAssetRegistry_registry. by apply Hkey.
  - intros h a. rewrite updateAssetRegistry_assets. intros Ha.
    destruct (Hlive h a Ha) as (Hk & md & Hr & Hh). split; [done|].
    exists md. split; [|done]. apply updateAssetRegistry_registry.
    split; [done|]. rewrite Hh. by eexists.
  - intros h a. rewrite updateAssetRegistry_assets. apply Hdir.
Qed.

Lemma scan_consistent :
  (∀ e m par h m', updateDirectoryAssets m e par = Ok (h, m') →
                   consistent m → consistent m')
  ∧ (∀ es h m m', scan_entries h es m = Ok m' →
                  consistent m → consistent m').
Proof.
  apply scan_invariant.
  - intros. by apply install_consistent.
  - apply link_to_parent_consistent.
Qed.

(** X12. [importAsset] keeps the manager consistent: afterwards, as
    before, every registry entry is stored under its own path, every live
    asset is stored under its own handle with its path registered under
    that handle, and every live asset of type Directory is a [Directory]
    object. *)
Theorem importAsset_keeps_consistent
    (m : AssetManager) (p : string) (par : UUID.t) :
  consistent m → consistent (importAsset m p par).
Proof.
  intros Hm. rewrite importAsset_install. by apply install_consistent.
Qed.

(** X13. A completed [updateDirectoryAssets] keeps the manager
    consistent, whatever the tree, the parent and the handles drawn. *)
Theorem updateDirectoryAssets_keeps_consistent
    (m m' : AssetManager) (e : FsEntry) (par h : UUID.t) :
  consistent m →
  updateDirectoryAssets m e par = Ok (h, m') →
  consistent m'.
Proof.
  intros Hm Hrun. destruct scan_consistent as [H _]. by eapply H.
Qed.

(** X14. [updateAssetRegistry] keeps the manager consistent: the entries
    it erases are not the ones of live assets. *)
Theorem updateAssetRegistry_keeps_consistent (m : AssetManager) :
  consistent m → consistent (updateAssetRegistry m).
Proof. apply updateAssetRegistry_consistent. Qed.

Lemma scan_frame_fields :
  (∀ e m par h m', updateDirectoryAssets m e par = Ok (h, m') →
     ∀ s f, serializers m = s ∧ projectFolder m = f →
            serializers m' = s ∧ projectFolder m' = f)
  ∧ (∀ es h m m', scan_entries h es m = Ok m' →
     ∀ s f, serializers m = s ∧ projectFolder m = f →
            serializers m' = s ∧ projectFolder m' = f).
Proof.
  pose (I := λ (sf : _ * _) (m : AssetManager),
          serializers m = sf.1 ∧ projectFolder m = sf.2).
  assert (H : ∀ sf,
    (∀ e m par h m', updateDirectoryAssets m e par = Ok (h, m') →
                     I sf m → I sf m')
    ∧ (∀ es h m m', scan_entries h es m = Ok m' → I sf m → I sf m')).
  { intros sf. apply scan_invariant.
    - intros upd m p ty par _ _ (H1 & H2).
      destruct (install_frame uuid_gen upd m p ty par) as (E1 & E2).
      unfold I. by rewrite E1, E2.
    - intros h par m m' Hl (H1 & H2).
      unfold link_to_parent in Hl. destruct (UUID.isValid par).
      + destruct (assets m !! par) as [a|]; [|done].
        destruct (push_child h a); [|done]. by injection Hl as <-.
      + by injection Hl as <-. }
  split.
  - intros e m par h m' Hrun s f Hm.
    by apply (proj1 (H (s, f)) e m par h m' Hrun).
  - intros es h m m' Hrun s f Hm.
    by apply (proj2 (H (s, f)) es h m m' Hrun).
Qed.

(** X15. The manager that [createAssetManager] returns is consistent, a
    handle is stored by an entry of its registry exactly when its live
    store has an asset under it, its serializers are the two loaders, its
    project folder is the given path, and its sorted view has one pair
    for every live asset. *)
Theorem createAssetManager_result
    (fs : FsEntry) (drawn : nat) (m : AssetManager) :
  createAssetManager uuid_gen getAssetTypeFromPath fs drawn = Ok m →
  consistent m
  ∧ (∀ h, registered m h ↔ is_Some (assets m !! h))
  ∧ serializers m = initial_serializers
  ∧ projectFolder m = fs_path fs
  ∧ length (sortedAssets m) = size (assets m).
Proof.
  intros Hcreate.
  pose proof (createAssetManager_consistent _ _ _ _ _ Hcreate) as Hiff.
  unfold createAssetManager in Hcreate.
  apply bind_Ok_inv in Hcreate as ([h0 m1] & Hrun & [= <-]).
  destruct scan_consistent as [Hcons _].
  destruct scan_frame_fields as [Hfields _].
  destruct (Hfields _ _ _ _ _ Hrun _ _ (conj eq_refl eq_refl)) as (Hs & Hf).
  split; [|split; [done|split; [done|split; [done|]]]].
  - apply updateAssetRegistry_consistent, (Hcons _ _ _ _ _ Hrun).
    split; [|split]; intros ? ? H; simpl in H; by rewrite lookup_empty in H.
  - unfold updateAssetRegistry. cbn [sortedAssets set_registry
      set_sortedAssets assets].
    rewrite (std_sort_Permutation SortAssets (map_to_list (assets m1))).
    by rewrite length_map_to_list.
Qed.

Lemma install_uuidsDrawn upd m p ty par :
  (∀ a, metadata (upd a) = metadata a) →
  uuidsDrawn (install upd m p ty par)
  = match registry m !! p with
    | Some _ => uuidsDrawn m
    | None => S (uuidsDrawn m)
    end.
Proof.
  intros Hupd. destruct (registry m !! p) as [md|] eqn:Hreg.
  - by destruct (install_registry_found uuid_gen upd m p ty par md Hupd Hreg)
      as (_ & -> & _).
  - by destruct (install_registry_new uuid_gen upd m p ty par Hupd Hreg)
      as (_ & -> & _).
Qed.

(** Outside the paths of the tree the registry is not touched, and the
    generator never goes back. *)
Lemma scan_registry_outside :
  (∀ e m par h m', updateDirectoryAssets m e par = Ok (h, m') →
     (∀ q, q ∉ fs_paths e → registry m' !! q = registry m !! q)
     ∧ (uuidsDrawn m ≤ uuidsDrawn m')%nat)
  ∧ (∀ es h m m', scan_entries h es m = Ok m' →
     (∀ q, q ∉ concat (map fs_paths es) → registry m' !! q = registry m !! q)
     ∧ (uuidsDrawn m ≤ uuidsDrawn m')%nat).
Proof.
  apply (run_ind uuid_gen getAssetTypeFromPath
           (λ m e _ _ m',
              (∀ q, q ∉ fs_paths e → registry m' !! q = registry m !! q)
              ∧ (uuidsDrawn m ≤ uuidsDrawn m')%nat)
           (λ _ es m m',
              (∀ q, q ∉ concat (map fs_paths es) →
                    registry m' !! q = registry m !! q)
              ∧ (uuidsDrawn m ≤ uuidsDrawn m')%nat)).
  - intros m p es par m2 m3 Hl _ [Hout Hle].
    apply link_to_parent_inv in Hl as (Hr & Hd & _).
    rewrite enter_directory_snd in Hr, Hd.
    pose proof (install_uuidsDrawn (set_loaded true) m p AssetType.Directory
                  par (set_loaded_metadata true)) as Hn.
    split.
    + intros q Hq. apply not_elem_of_cons in Hq as [Hne Hq].
      rewrite (Hout q Hq), Hr. by apply install_registry_other.
    + rewrite Hd, Hn in Hle. destruct (registry m !! p); lia.
  - done.
  - intros h p es m m' _ [Hout Hle].
    pose proof (install_uuidsDrawn id m p (getAssetTypeFromPath p) h
                  id_metadata) as Hn.
    rewrite importAsset_install in Hout, Hle. split.
    + intros q Hq. simpl in Hq. apply not_elem_of_cons in Hq as [Hne Hq].
      rewrite (Hout q Hq). by apply install_registry_other.
    + rewrite Hn in Hle. destruct (registry m !! p); lia.
  - intros h p es0 es m h' m1 m' _ [Hout1 Hle1] _ [Hout Hle]. split; [|lia].
    intros q Hq. cbn [map concat] in Hq.
    apply not_elem_of_app in Hq as [Hq1 Hq2].
    by rewrite (Hout q Hq2), (Hout1 q Hq1).
Qed.

(** X16. A completed scan changes and removes no entry of the registry
    and adds entries for the paths of the tree only: afterwards the
    registered paths are the ones registered before and the paths of the
    tree.  It returns the handle registered for its root, the generator
    never goes back, and the serializers and the project folder are as
    they were. *)
Theorem updateDirectoryAssets_registry_growth
    (m m' : AssetManager) (e : FsEntry) (par h : UUID.t) :
  updateDirectoryAssets m e par = Ok (h, m') →
  registry m ⊆ registry m'
  ∧ (∀ q, is_Some (registry m' !! q)
          ↔ is_Some (registry m !! q) ∨ q ∈ fs_paths e)
  ∧ h = handle_of m' (fs_path e)
  ∧ (uuidsDrawn m ≤ uuidsDrawn m')%nat
  ∧ serializers m' = serializers m
  ∧ projectFolder m' = projectFolder m.
Proof.
  intros Hrun.
  pose proof (proj1 (scan_registry_mono uuid_gen getAssetTypeFromPath)
                _ _ _ _ _ Hrun) as Hsub.
  destruct (proj1 (scan_registers uuid_gen getAssetTypeFromPath)
              _ _ _ _ _ Hrun) as [Hh Hreg].
  destruct (proj1 scan_registry_outside _ _ _ _ _ Hrun) as [Hout Hle].
  destruct (proj1 scan_frame_fields _ _ _ _ _ Hrun _ _
              (conj eq_refl eq_refl)) as (Hs & Hf).
  split; [done|]. split; [|done].
  intros q. split.
  - intros Hq. destruct (decide (q ∈ fs_paths e)) as [Hin|Hin]; [by right|].
    left. by rewrite <- (Hout q Hin).
  - intros [[md Hmd]|Hin]; [|by apply Hreg].
    exists md. by eapply lookup_weaken.
Qed.

Lemma scan_registered_unchanged :
  (∀ e m par h m', updateDirectoryAssets m e par = Ok (h, m') →
     (∀ q, q ∈ fs_paths e → is_Some (registry m !! q)) →
     registry m' = registry m ∧ uuidsDrawn m' = uuidsDrawn m)
  ∧ (∀ es h m m', scan_entries h es m = Ok m' →
     (∀ q, q ∈ concat (map fs_paths es) → is_Some (registry m !! q)) →
     registry m' = registry m ∧ uuidsDrawn m' = uuidsDrawn m).
Proof.
  apply (run_ind uuid_gen getAssetTypeFromPath
           (λ m e _ _ m',
              (∀ q, q ∈ fs_paths e → is_Some (registry m !! q)) →
              registry m' = registry m ∧ uuidsDrawn m' = uuidsDrawn m)
           (λ _ es m m',
              (∀ q, q ∈ concat (map fs_paths es) →
                    is_Some (registry m !! q)) →
              registry m' = registry m ∧ uuidsDrawn m' = uuidsDrawn m)).
  - intros m p es par m2 m3 Hl _ Hloop Hall.
    apply link_to_parent_inv in Hl as (Hr & Hd & _).
    rewrite enter_directory_snd in Hr, Hd.
    destruct (Hall p) as [md Hmd]; [simpl; by left|].
    destruct (install_registry_found uuid_gen (set_loaded true) m p
                AssetType.Directory par md (set_loaded_metadata true) Hmd)
      as (Hr1 & Hd1 & _).
    destruct Hloop as [-> ->]; [|by rewrite Hr, Hd].
    intros q Hq. rewrite Hr, Hr1. apply Hall. simpl. by right.
  - done.
  - intros h p es m m' _ Hloop Hall.
    destruct (Hall p) as [md Hmd]; [simpl; by left|].
    destruct (install_registry_found uuid_gen id m p (getAssetTypeFromPath p)
                h md id_metadata Hmd) as (Hr1 & Hd1 & _).
    rewrite importAsset_install in Hloop.
    destruct Hloop as [-> ->]; [|done].
    intros q Hq. rewrite Hr1. apply Hall. simpl. by right.
  - intros h p es0 es m h' m1 m' _ H1 _ H2 Hall.
    destruct H1 as [Hr1 Hd1].
    { intros q Hq. apply Hall. cbn [map concat]. apply elem_of_app. by left. }
    destruct H2 as [-> ->]; [|done].
    intros q Hq. rewrite Hr1. apply Hall. cbn [map concat].
    apply elem_of_app. by right.
Qed.

(** X17. A scan of a tree whose paths are all in the registry draws no
    handle and leaves the registry exactly as it was. *)
Theorem updateDirectoryAssets_rescan_draws_nothing
    (m m' : AssetManager) (e : FsEntry) (par h : UUID.t) :
  (∀ q, q ∈ fs_paths e → is_Some (registry m !! q)) →
  updateDirectoryAssets m e par = Ok (h, m') →
  registry m' = registry m ∧ uuidsDrawn m' = uuidsDrawn m.
Proof.
  intros Hall Hrun. by apply (proj1 scan_registered_unchanged _ _ _ _ _ Hrun).
Qed.

(** X18. A scan under a valid parent handle that is not the handle of
    the scanned directory needs a live [Directory] under that handle: when
    the live store has nothing under it, [assets.at] throws
    [out_of_range], and when it has a plain [Asset], using it through the
    cast pointer is undefined. *)
Theorem updateDirectoryAssets_parent_faults
    (m : AssetManager) (p : string) (es : list FsEntry) (par : UUID.t) :
  UUID.isValid par = true →
  (∀ md, registry m !! p = Some md → handle md ≠ par) →
  (registry m !! p = None → uuid_gen (uuidsDrawn m) ≠ par) →
  (assets m !! par = None →
   updateDirectoryAssets m (FsDir p es) par = Raise OutOfRange)
  ∧ (∀ a, assets m !! par = Some a → children a = None →
          updateDirectoryAssets m (FsDir p es) par = Raise BadDowncast).
Proof.
  intros Hv Hfound Hnew.
  assert (Hne : (enter_directory m p par).1 ≠ par).
  { rewrite enter_directory_fst.
    destruct (registry m !! p) as [md|] eqn:Hreg.
    - destruct (createEmptyAsset_found uuid_gen m p AssetType.Directory par
                  md Hreg) as [-> _].
      by apply Hfound.
    - destruct (createEmptyAsset_new uuid_gen m p AssetType.Directory par
                  Hreg) as [-> _].
      by apply Hnew. }
  assert (Hpar : assets (enter_directory m p par).2 !! par = assets m !! par).
  { rewrite enter_directory_snd, install_assets
      by apply set_loaded_metadata.
    apply lookup_insert_ne. by rewrite <- enter_directory_fst. }
  split.
  - intros Ha. rewrite updateDirectoryAssets_dir. unfold link_to_parent.
    by rewrite Hv, Hpar, Ha.
  - intros a Ha Hc. rewrite updateDirectoryAssets_dir.
    unfold link_to_parent, push_child. by rewrite Hv, Hpar, Ha, Hc.
Qed.

Lemma scan_mints_in_order :
  (∀ e m par h m', updateDirectoryAssets m e par = Ok (h, m') →
     NoDup (fs_paths e) →
     (∀ q, q ∈ fs_paths e → registry m !! q = None) →
     uuidsDrawn m' = uuidsDrawn m + length (fs_paths e)
     ∧ ∀ i q, fs_paths e !! i = Some q →
              handle_of m' q = uuid_gen (uuidsDrawn m + i))
  ∧ (∀ es h m m', scan_entries h es m = Ok m' →
     NoDup (concat (map fs_paths es)) →
     (∀ q, q ∈ concat (map fs_paths es) → registry m !! q = None) →
     uuidsDrawn m' = uuidsDrawn m + length (concat (map fs_paths es))
     ∧ ∀ i q, concat (map fs_paths es) !! i = Some q →
              handle_of m' q = uuid_gen (uuidsDrawn m + i)).
Proof.
  destruct (scan_registry_mono uuid_gen getAssetTypeFromPath)
    as [HmonoE HmonoL].
  destruct scan_registry_outside as [HoutE _].
  apply (run_ind uuid_gen getAssetTypeFromPath
           (λ m e _ _ m',
              NoDup (fs_paths e) →
              (∀ q, q ∈ fs_paths e → registry m !! q = None) →
              uuidsDrawn m' = uuidsDrawn m + length (fs_paths e)
              ∧ ∀ i q, fs_paths e !! i = Some q →
                       handle_of m' q = uuid_gen (uuidsDrawn m + i))
           (λ _ es m m',
              NoDup (concat (map fs_paths es)) →
              (∀ q, q ∈ concat (map fs_paths es) → registry m !! q = None) →
              uuidsDrawn m' = uuidsDrawn m + length (concat (map fs_paths es))
              ∧ ∀ i q, concat (map fs_paths es) !! i = Some q →
                       handle_of m' q = uuid_gen (uuidsDrawn m + i))).
  - intros m p es par m2 m3 Hl Hrun Hloop Hnd Hnone. simpl in Hnd.
    apply NoDup_cons in Hnd as [Hp Hnd].
    apply link_to_parent_inv in Hl as (Hr & Hd & _).
    rewrite enter_directory_snd in Hr, Hd.
    assert (Hreg : registry m !! p = None) by (apply Hnone; simpl; by left).
    destruct (install_registry_new uuid_gen (set_loaded true) m p
                AssetType.Directory par (set_loaded_metadata true) Hreg)
      as (Hr1 & Hd1 & _).
    rewrite Hr1 in Hr. rewrite Hd1 in Hd.
    destruct Hloop as [Hn Hh]; [done| |].
    { intros q Hq. rewrite Hr, lookup_insert_ne by (by intros ->).
      apply Hnone. simpl. by right. }
    rewrite Hd in Hn, Hh. split; [simpl; lia|].
    intros [|i] q Hq; simpl in Hq.
    + injection Hq as <-. rewrite Nat.add_0_r.
      rewrite (handle_of_mono m2 m3 p);
        [|by eapply HmonoL|by rewrite Hr, lookup_insert_eq].
      unfold handle_of. by rewrite Hr, lookup_insert_eq.
    + rewrite (Hh i q Hq). f_equal. lia.
  - intros h m _ _. split; [simpl; lia|]. by intros i q Hq.
  - intros h p es m m' Hrun Hloop Hnd Hnone. simpl in Hnd.
    apply NoDup_cons in Hnd as [Hp Hnd].
    assert (Hreg : registry m !! p = None) by (apply Hnone; simpl; by left).
    rewrite importAsset_install in Hrun, Hloop.
    destruct (install_registry_new uuid_gen id m p (getAssetTypeFromPath p)
                h id_metadata Hreg) as (Hr1 & Hd1 & _).
    destruct Hloop as [Hn Hh]; [done| |].
    { intros q Hq. rewrite Hr1, lookup_insert_ne by (by intros ->).
      apply Hnone. simpl. by right. }
    rewrite Hd1 in Hn, Hh. split; [simpl; lia|].
    intros [|i] q Hq; simpl in Hq.
    + injection Hq as <-. rewrite Nat.add_0_r.
      rewrite (handle_of_mono
                 (install id m p (getAssetTypeFromPath p) h) m' p);
        [|by eapply HmonoL|by rewrite Hr1, lookup_insert_eq].
      unfold handle_of. by rewrite Hr1, lookup_insert_eq.
    + rewrite (Hh i q Hq). f_equal. lia.
  - intros h p es0 es m h' m1 m' Hrun1 H1 Hrun Hloop Hnd Hnone.
    cbn [map concat] in Hnd, Hnone |- *.
    apply NoDup_app in Hnd as (Hnd1 & Hdisj & Hnd2).
    destruct H1 as [Hn1 Hh1]; [done| |].
    { intros q Hq. apply Hnone, elem_of_app. by left. }
    destruct (HoutE _ _ _ _ _ Hrun1) as [Hout _].
    destruct Hloop as [Hn Hh]; [done| |].
    { intros q Hq. rewrite Hout by (intros Hin; by apply (Hdisj q)).
      apply Hnone, elem_of_app. by right. }
    split; [rewrite List.length_app; lia|].
    intros i q Hq. apply lookup_app_Some in Hq as [Hq|[Hge Hq]].
    + rewrite <- (Hh1 i q Hq). apply handle_of_mono; [by eapply HmonoL|].
      apply (proj1 (scan_registers uuid_gen getAssetTypeFromPath)
               _ _ _ _ _ Hrun1).
      by eapply list_elem_of_lookup_2.
    + rewrite (Hh _ q Hq), Hn1. f_equal. lia.
Qed.

(** X19. A scan of a tree none of whose paths is registered draws one
    handle for each path, in the order in which it visits them: depth
    first, a directory before its entries, the entries in the order of
    the enumeration.  The path visited [i]-th gets the [i]-th handle that
    the generator yields from then on. *)
Theorem updateDirectoryAssets_mints_in_visiting_order
    (m m' : AssetManager) (e : FsEntry) (par h : UUID.t) :
  NoDup (fs_paths e) →
  (∀ q, q ∈ fs_paths e → registry m !! q = None) →
  updateDirectoryAssets m e par = Ok (h, m') →
  uuidsDrawn m' = uuidsDrawn m + length (fs_paths e)
  ∧ h = uuid_gen (uuidsDrawn m)
  ∧ ∀ i q, fs_paths e !! i = Some q →
           handle_of m' q = uuid_gen (uuidsDrawn m + i).
Proof.
  intros Hnd Hnone Hrun.
  destruct (proj1 scan_mints_in_order _ _ _ _ _ Hrun Hnd Hnone) as [Hn Hh].
  split; [done|]. split; [|done].
  destruct (proj1 (scan_registers uuid_gen getAssetTypeFromPath)
              _ _ _ _ _ Hrun) as [-> _].
  rewrite (Hh 0 (fs_path e)); [by rewrite Nat.add_0_r|]. by destruct e.
Qed.

(** X20. A directory scanned again under the same live parent is added
    to the children of the parent again: the parent, which the scan does
    not recreate, then has the handle of the directory twice. *)
Theorem updateDirectoryAssets_rescan_repeats_child
    (m : AssetManager) (p : string) (es : list FsEntry) (par : UUID.t)
    (a : Asset) (l : list UUID.t) :
  well_formed m →
  NoDup (fs_paths (FsDir p es)) →
  parent_live m par (fs_paths (FsDir p es)) →
  assets m !! par = Some a →
  children a = Some l →
  ∃ h m1 m2,
    updateDirectoryAssets m (FsDir p es) par = Ok (h, m1)
    ∧ updateDirectoryAssets m1 (FsDir p es) par = Ok (h, m2)
    ∧ assets m1 !! par = Some (with_children a (l ++ [h]))
    ∧ assets m2 !! par = Some (with_children a (l ++ [h; h])).
Proof.
  intros Hwf Hnd Hlive Ha Hl.
  pose proof (parent_live_valid uuid_gen _ _ _ Hwf Hlive) as Hv.
  destruct (entry_spec_all uuid_gen getAssetTypeFromPath (FsDir p es) m par
              Hwf Hnd (or_intror Hlive)) as (h & m1 & Hrun1 & Hh1 & Hpost1).
  pose proof (parent_ready_after uuid_gen _ _ _ _ Hwf (or_intror Hlive)
                Hpost1) as Hready1.
  destruct (entry_spec_all uuid_gen getAssetTypeFromPath (FsDir p es) m1 par
              (post_well_formed _ _ _ _ _ Hpost1) Hnd Hready1)
    as (h' & m2 & Hrun2 & Hh2 & Hpost2).
  assert (h' = h) as ->.
  { rewrite Hh1, Hh2. apply handle_of_mono; [apply Hpost2|].
    apply (post_registered _ _ _ _ _ Hpost1), fs_path_in. }
  pose proof (post_parent _ _ _ _ _ Hpost1 a l Hv Ha Hl) as Hp1.
  cbn [fs_path] in Hh1, Hh2. cbv iota in Hp1. rewrite <- Hh1 in Hp1.
  pose proof (post_parent _ _ _ _ _ Hpost2 _ (l ++ [h]) Hv Hp1 eq_refl)
    as Hp2.
  cbv iota in Hp2. rewrite <- Hh2 in Hp2. exists h, m1, m2.
  do 3 (split; [done|]). rewrite Hp2, with_children_twice.
  by rewrite <- app_assoc.
Qed.

End MoreScan.

(** ** Construction from a tree *)

(** X21. From a generator whose handles do not collide,
    [createAssetManager] on a directory tree with distinct paths
    succeeds; the registry of the manager has exactly the paths of the
    tree, and every path has a live asset, with that path, under the
    handle registered for it. *)
Theorem createAssetManager_registers_tree
    (uuid_gen : nat → UUID.t) (getAssetTypeFromPath : string → AssetType.t)
    (p : string) (es : list FsEntry) (drawn : nat) :
  well_formed uuid_gen (new_AssetManager drawn) →
  NoDup (fs_paths (FsDir p es)) →
  ∃ m,
    createAssetManager uuid_gen getAssetTypeFromPath (FsDir p es) drawn = Ok m
    ∧ (∀ q, is_Some (registry m !! q) ↔ q ∈ fs_paths (FsDir p es))
    ∧ (∀ q, q ∈ fs_paths (FsDir p es) →
            ∃ a, assets m !! handle_of m q = Some a
                 ∧ handle (metadata a) = handle_of m q
                 ∧ path (metadata a) = q)
    ∧ uuidsDrawn m = drawn + length (fs_paths (FsDir p es)).
Proof.
  intros Hwf Hnd. unfold createAssetManager.
  set (m0 := {| projectFolder := fs_path (FsDir p es);
                serializers := initial_serializers;
                registry := registry (new_AssetManager drawn);
                assets := assets (new_AssetManager drawn);
                sortedAssets := sortedAssets (new_AssetManager drawn);
                uuidsDrawn := uuidsDrawn (new_AssetManager drawn) |}).
  assert (Hwf0 : well_formed uuid_gen m0)
    by (by apply (well_formed_ext uuid_gen (new_AssetManager drawn))).
  destruct (entry_spec_all uuid_gen getAssetTypeFromPath (FsDir p es) m0
              UUID.None Hwf0 Hnd (or_introl eq_refl))
    as (h & m1 & Hrun & _ & Hpost).
  rewrite Hrun. cbn [bind snd]. eexists. split; [done|].
  destruct (proj1 (scan_registry_outside uuid_gen getAssetTypeFromPath)
              _ _ _ _ _ Hrun) as [Hout _].
  assert (Hnone : ∀ q, q ∈ fs_paths (FsDir p es) → registry m0 !! q = None)
    by (intros q _; apply lookup_empty).
  destruct (proj1 (scan_mints_in_order uuid_gen getAssetTypeFromPath)
              _ _ _ _ _ Hrun Hnd Hnone) as [Hn _].
  assert (Hkept : ∀ q, q ∈ fs_paths (FsDir p es) →
            registry (updateAssetRegistry m1) !! q = registry m1 !! q
            ∧ is_Some (registry m1 !! q)).
  { intros q Hq.
    destruct (post_registered _ _ _ _ _ Hpost q Hq) as [md Hmd].
    destruct (post_all _ _ _ _ _ Hpost q Hq) as (a & Ha & _).
    rewrite (handle_of_lookup _ _ _ Hmd) in Ha.
    split; [|by eexists]. rewrite Hmd.
    apply updateAssetRegistry_registry. split; [done|by eexists]. }
  split; [|split; [|done]].
  - intros q. split.
    + intros [md [Hmd _]%updateAssetRegistry_registry].
      destruct (decide (q ∈ fs_paths (FsDir p es))) as [Hin|Hin]; [done|].
      rewrite (Hout q Hin) in Hmd. simpl in Hmd.
      by rewrite lookup_empty in Hmd.
    + intros Hq. destruct (Hkept q Hq) as [-> Hs]. done.
  - intros q Hq. destruct (post_all _ _ _ _ _ Hpost q Hq) as (a & Ha & Hh & Hp).
    destruct (Hkept q Hq) as [Hsame _].
    exists a. unfold handle_of in *. rewrite Hsame.
    by rewrite updateAssetRegistry_assets.
Qed.

(** * The further properties on the sample inputs *)

Section MoreSampleFacts.

Lemma new_manager_consistent (n : nat) : consistent (new_AssetManager n).
Proof.
  split; [|split]; intros ? ? H; simpl in H; by rewrite lookup_empty in H.
Qed.

Lemma manager_a_model_consistent : consistent Sample.manager_a_model.
Proof.
  split; [|split].
  - intros p md H. simpl in H.
    by apply lookup_singleton_Some in H as [<- <-].
  - intros h a H. simpl in H. apply lookup_singleton_Some in H as [<- <-].
    split; [done|]. by exists Sample.model_md.
  - intros h a H. simpl in H. by apply lookup_singleton_Some in H as [<- <-].
Qed.

Lemma root_scan_run :
  updateDirectoryAssets Sample.gen Sample.classify (new_AssetManager 0)
                        Sample.root_tree UUID.None
  = Ok (100%N, Sample.root_scanned).
Proof. by vm_compute. Qed.

Lemma root_rescan_run :
  updateDirectoryAssets Sample.gen Sample.classify Sample.root_scanned
                        Sample.root_tree UUID.None
  = Ok (100%N, Sample.root_rescanned).
Proof. by vm_compute. Qed.

Lemma root_manager_run :
  createAssetManager Sample.gen Sample.classify Sample.root_tree 0
  = Ok Sample.root_manager.
Proof. by vm_compute. Qed.

Lemma root_scanned_registered q :
  q ∈ fs_paths Sample.root_tree →
  is_Some (registry Sample.root_scanned !! q).
Proof.
  intros Hq. simpl in Hq.
  repeat (apply elem_of_cons in Hq as [->|Hq];
          [eexists; vm_compute; reflexivity|]).
  by apply elem_of_nil in Hq.
Qed.

Lemma manager_top_well_formed : well_formed Sample.gen Sample.manager_top.
Proof.
  split; [|split].
  - intros p1 p2 md1 md2 H1 H2 _. simpl in H1, H2.
    apply lookup_singleton_Some in H1 as [<- _].
    by apply lookup_singleton_Some in H2 as [<- _].
  - intros p md H. simpl in H.
    by apply lookup_singleton_Some in H as [_ <-].
  - apply sample_gen_fresh. intros p md H. simpl in H.
    by apply lookup_singleton_Some in H as [_ <-].
Qed.

Lemma sub_tree_NoDup : NoDup (fs_paths Sample.sub_tree).
Proof. apply (bool_decide_unpack _). by vm_compute. Qed.

Lemma manager_top_parent_live :
  parent_live Sample.manager_top 7%N (fs_paths Sample.sub_tree).
Proof.
  exists "/top", Sample.top_md, Sample.top_directory, [].
  repeat split; try done. simpl. by intros [=]%list_elem_of_singleton.
Qed.

End MoreSampleFacts.

(** X4 on [/p/scene.fbx] and ["submesh0"], called twice. *)
Lemma createEmbeddedAsset_draws_each_time_witness :
  registry Sample.manager_scene !! "/p/scene.fbx" = Some Sample.scene_md
  ∧ registry Sample.manager_scene !! ("<" +:+ "/p/scene.fbx" +:+ ">"
                                          +:+ "submesh0") = None
  ∧ ∃ d1' m1 d2' m2,
      createEmbeddedAsset Sample.gen "<" ">" Sample.manager_scene
        AssetType.Model (Sample.plain_asset 1%N "" AssetType.None)
        "/p/scene.fbx" "submesh0" = Ok (d1', m1)
      ∧ createEmbeddedAsset Sample.gen "<" ">" m1
          AssetType.Model (Sample.plain_asset 2%N "" AssetType.None)
          "/p/scene.fbx" "submesh0" = Ok (d2', m2)
      ∧ uuidsDrawn m2 = 2.
Proof.
  assert (H1 : registry Sample.manager_scene !! "/p/scene.fbx"
               = Some Sample.scene_md) by reflexivity.
  assert (H2 : registry Sample.manager_scene
                 !! ("<" +:+ "/p/scene.fbx" +:+ ">" +:+ "submesh0") = None)
    by reflexivity.
  split; [exact H1|]. split; [exact H2|].
  destruct (createEmbeddedAsset_draws_each_time Sample.gen "<" ">"
              Sample.manager_scene AssetType.Model
              (Sample.plain_asset 1%N "" AssetType.None)
              (Sample.plain_asset 2%N "" AssetType.None)
              "/p/scene.fbx" "submesh0" Sample.scene_md H1 H2)
    as (d1' & m1 & d2' & m2 & Hc1 & Hc2 & _ & Hn & _).
  exists d1', m1, d2', m2. split; [exact Hc1|]. split; [exact Hc2|].
  exact Hn.
Defined.

(** X10 on [A.PNG] and [a.png], two Textures, on [B.txt] and [a.txt],
    and on a Directory and a Texture. *)
Lemma SortAssets_type_then_caseless_name_witness :
  let a := (1%N, Sample.plain_asset 1%N "/p/A.PNG" AssetType.Texture) in
  let b := (2%N, Sample.plain_asset 2%N "/p/a.png" AssetType.Texture) in
  let c := (3%N, Sample.plain_asset 3%N "/p/B.txt" AssetType.Texture) in
  let d := (4%N, Sample.plain_asset 4%N "/p/z" AssetType.Directory) in
  (SortAssets a b = false ∧ SortAssets b a = false)
  ∧ SortAssets b c = true
  ∧ SortAssets d a = true.
Proof.
  cbv zeta. split; [|split].
  - apply (SortAssets_type_then_caseless_name
             (1%N, Sample.plain_asset 1%N "/p/A.PNG" AssetType.Texture)
             (2%N, Sample.plain_asset 2%N "/p/a.png" AssetType.Texture));
      reflexivity.
  - apply (SortAssets_type_then_caseless_name
             (2%N, Sample.plain_asset 2%N "/p/a.png" AssetType.Texture)
             (3%N, Sample.plain_asset 3%N "/p/B.txt" AssetType.Texture)).
    right. split; reflexivity.
  - apply (SortAssets_type_then_caseless_name
             (4%N, Sample.plain_asset 4%N "/p/z" AssetType.Directory)
             (1%N, Sample.plain_asset 1%N "/p/A.PNG" AssetType.Texture)).
    left. simpl. lia.
Defined.

(** X12 on the manager that has [/p/a.model], importing [/p/b.png]. *)
Lemma importAsset_keeps_consistent_witness :
  consistent Sample.manager_a_model
  ∧ consistent (importAsset Sample.gen Sample.classify Sample.manager_a_model
                            "/p/b.png" 7%N).
Proof.
  split; [exact manager_a_model_consistent|].
  exact (importAsset_keeps_consistent Sample.gen Sample.classify
           Sample.manager_a_model "/p/b.png" 7%N manager_a_model_consistent).
Defined.

(** X13 on the scan of [/root] from an empty manager. *)
Lemma updateDirectoryAssets_keeps_consistent_witness :
  consistent (new_AssetManager 0)
  ∧ updateDirectoryAssets Sample.gen Sample.classify (new_AssetManager 0)
                          Sample.root_tree UUID.None
    = Ok (100%N, Sample.root_scanned)
  ∧ consistent Sample.root_scanned.
Proof.
  split; [exact (new_manager_consistent 0)|]. split; [exact root_scan_run|].
  exact (updateDirectoryAssets_keeps_consistent Sample.gen Sample.classify
           _ _ _ _ _ (new_manager_consistent 0) root_scan_run).
Defined.

(** X14 on the manager that has [/p/a.model]. *)
Lemma updateAssetRegistry_keeps_consistent_witness :
  consistent Sample.manager_a_model
  ∧ consistent (updateAssetRegistry Sample.manager_a_model).
Proof.
  split; [exact manager_a_model_consistent|].
  exact (updateAssetRegistry_keeps_consistent Sample.manager_a_model
           manager_a_model_consistent).
Defined.

(** X15 on the manager constructed over [/root]. *)
Lemma createAssetManager_result_witness :
  createAssetManager Sample.gen Sample.classify Sample.root_tree 0
  = Ok Sample.root_manager
  ∧ consistent Sample.root_manager
  ∧ length (sortedAssets Sample.root_manager)
    = size (assets Sample.root_manager).
Proof.
  split; [exact root_manager_run|].
  destruct (createAssetManager_result Sample.gen Sample.classify _ _ _
              root_manager_run) as (Hc & _ & _ & _ & Hl).
  split; [exact Hc|exact Hl].
Defined.

(** X16 on the scan of [/root] from an empty manager. *)
Lemma updateDirectoryAssets_registry_growth_witness :
  updateDirectoryAssets Sample.gen Sample.classify (new_AssetManager 0)
                        Sample.root_tree UUID.None
  = Ok (100%N, Sample.root_scanned)
  ∧ ∀ q, is_Some (registry Sample.root_scanned !! q)
         ↔ q ∈ fs_paths Sample.root_tree.
Proof.
  split; [exact root_scan_run|].
  destruct (updateDirectoryAssets_registry_growth Sample.gen Sample.classify
              _ _ _ _ _ root_scan_run) as (_ & Hiff & _).
  intros q. rewrite (Hiff q). split; [|by right].
  intros [[md Hmd]|Hq]; [|exact Hq].
  simpl in Hmd. by rewrite lookup_empty in Hmd.
Defined.

(** X17 on the second scan of [/root]. *)
Lemma updateDirectoryAssets_rescan_draws_nothing_witness :
  (∀ q, q ∈ fs_paths Sample.root_tree →
        is_Some (registry Sample.root_scanned !! q))
  ∧ updateDirectoryAssets Sample.gen Sample.classify Sample.root_scanned
                          Sample.root_tree UUID.None
    = Ok (100%N, Sample.root_rescanned)
  ∧ registry Sample.root_rescanned = registry Sample.root_scanned
  ∧ uuidsDrawn Sample.root_rescanned = uuidsDrawn Sample.root_scanned.
Proof.
  split; [exact root_scanned_registered|]. split; [exact root_rescan_run|].
  exact (updateDirectoryAssets_rescan_draws_nothing Sample.gen Sample.classify
           _ _ _ _ _ root_scanned_registered root_rescan_run).
Defined.

(** X18 on a scan of [/root] under handle 5, which has no live asset. *)
Lemma updateDirectoryAssets_parent_faults_witness :
  UUID.isValid 5%N = true
  ∧ assets (new_AssetManager 0) !! 5%N = None
  ∧ updateDirectoryAssets Sample.gen Sample.classify (new_AssetManager 0)
                          Sample.root_tree 5%N
    = Raise OutOfRange.
Proof.
  assert (H1 : UUID.isValid 5%N = true) by reflexivity.
  assert (H2 : ∀ md, registry (new_AssetManager 0) !! "/root" = Some md →
                     handle md ≠ 5%N) by (intros md H; discriminate H).
  assert (H3 : registry (new_AssetManager 0) !! "/root" = None →
               Sample.gen (uuidsDrawn (new_AssetManager 0)) ≠ 5%N)
    by (intros _; discriminate).
  assert (H4 : assets (new_AssetManager 0) !! 5%N = None) by reflexivity.
  split; [exact H1|]. split; [exact H4|].
  destruct (updateDirectoryAssets_parent_faults Sample.gen Sample.classify
              (new_AssetManager 0) "/root" Sample.root_entries 5%N H1 H2 H3)
    as [Hthrow _].
  exact (Hthrow H4).
Defined.

(** X19 on the first scan of [/root]. *)
Lemma updateDirectoryAssets_mints_in_visiting_order_witness :
  NoDup (fs_paths Sample.root_tree)
  ∧ (∀ q, q ∈ fs_paths Sample.root_tree →
          registry (new_AssetManager 0) !! q = None)
  ∧ updateDirectoryAssets Sample.gen Sample.classify (new_AssetManager 0)
                          Sample.root_tree UUID.None
    = Ok (100%N, Sample.root_scanned)
  ∧ uuidsDrawn Sample.root_scanned = 4
  ∧ handle_of Sample.root_scanned "/root/a.txt" = Sample.gen 2.
Proof.
  assert (H2 : ∀ q, q ∈ fs_paths Sample.root_tree →
                    registry (new_AssetManager 0) !! q = None)
    by (intros q _; apply lookup_empty).
  split; [exact root_tree_NoDup|]. split; [exact H2|].
  split; [exact root_scan_run|].
  destruct (updateDirectoryAssets_mints_in_visiting_order Sample.gen
              Sample.classify _ _ _ _ _ root_tree_NoDup H2 root_scan_run)
    as (Hn & _ & Hh).
  split; [exact Hn|]. exact (Hh 2 "/root/a.txt" eq_refl).
Defined.

(** X20 on [/top/sub], scanned twice under the live directory [/top]. *)
Lemma updateDirectoryAssets_rescan_repeats_child_witness :
  well_formed Sample.gen Sample.manager_top
  ∧ NoDup (fs_paths Sample.sub_tree)
  ∧ parent_live Sample.manager_top 7%N (fs_paths Sample.sub_tree)
  ∧ assets Sample.manager_top !! 7%N = Some Sample.top_directory
  ∧ children Sample.top_directory = Some []
  ∧ ∃ h m1 m2,
      updateDirectoryAssets Sample.gen Sample.classify Sample.manager_top
                            Sample.sub_tree 7%N = Ok (h, m1)
      ∧ updateDirectoryAssets Sample.gen Sample.classify m1
                              Sample.sub_tree 7%N = Ok (h, m2)
      ∧ assets m2 !! 7%N
        = Some (with_children Sample.top_directory ([] ++ [h; h])).
Proof.
  assert (H4 : assets Sample.manager_top !! 7%N = Some Sample.top_directory)
    by reflexivity.
  assert (H5 : children Sample.top_directory = Some []) by reflexivity.
  split; [exact manager_top_well_formed|]. split; [exact sub_tree_NoDup|].
  split; [exact manager_top_parent_live|]. split; [exact H4|].
  split; [exact H5|].
  destruct (updateDirectoryAssets_rescan_repeats_child Sample.gen
              Sample.classify Sample.manager_top "/top/sub" [] 7%N
              Sample.top_directory [] manager_top_well_formed sub_tree_NoDup
              manager_top_parent_live H4 H5)
    as (h & m1 & m2 & Hr1 & Hr2 & _ & Hp2).
  exists h, m1, m2. split; [exact Hr1|]. split; [exact Hr2|exact Hp2].
Defined.

(** X21 on the construction over [/root]. *)
Lemma createAssetManager_registers_tree_witness :
  well_formed Sample.gen (new_AssetManager 0)
  ∧ NoDup (fs_paths Sample.root_tree)
  ∧ ∃ m,
      createAssetManager Sample.gen Sample.classify Sample.root_tree 0 = Ok m
      ∧ (∀ q, is_Some (registry m !! q) ↔ q ∈ fs_paths Sample.root_tree)
      ∧ uuidsDrawn m = 4.
Proof.
  split; [exact (new_manager_well_formed 0)|].
  split; [exact root_tree_NoDup|].
  destruct (createAssetManager_registers_tree Sample.gen Sample.classify
              "/root" Sample.root_entries 0 (new_manager_well_formed 0)
              root_tree_NoDup) as (m & Hc & Hiff & _ & Hn).
  exists m. split; [exact Hc|]. split; [exact Hiff|exact Hn].
Defined.
